(** * 75 Hard fitness tracker: persistent store, challenge state, workout log

    A shallow embedding of [src/hooks/useLocalStorage.js], of the state
    handling part of [src/App.js] (component [HardTracker]), of the
    start-up code of [src/index.js] and of the catalogue
    [src/data/workoutData.js], followed by the properties of the
    specification that were checked against them and by further properties
    read off the code.

    Conventions.
    - JavaScript numbers that the program only ever uses as integers (day
      numbers, weekday indices, clock readings) are [Z]; every quantity the
      program can reach stays far below 2^53, where doubles are exact.
    - Strings are [string]; arrays are [list]; objects used as dictionaries
      are [gmap string _]; [undefined] results are [None].
    - [window.localStorage] is a [gmap string string]; an exception caught
      by a [try ... catch] is an [option]/match on the failing call.
    - The clock ([Date.now()]) and the random source ([Math.random()]) are
      inputs of the functions that read them.
    - The two percentages are computed on binary64 numbers, as the code
      computes them. *)

From stdpp Require Import gmap strings list fin_maps pretty.
From Stdlib Require Import ZArith Lia Ascii DecimalString DecimalZ Floats Uint63.

Local Open Scope Z_scope.

(** ** JavaScript primitives used by the program *)

Module Js.

(** [arr[i]] for a numeric index: [undefined] outside the array, in
    particular for every negative index. *)
Definition index {A} (arr : list A) (i : Z) : option A :=
  if i <? 0 then None else arr !! Z.to_nat i.

(** [a % b] truncates towards zero: the sign follows the dividend. *)
Definition remainder (a b : Z) : Z := Z.rem a b.

(** [arr.includes(x)] on an array of integers. *)
Definition includes (arr : list Z) (x : Z) : bool :=
  existsb (Z.eqb x) arr.

(** [str.split(sep)] for a one-character separator: the pieces between
    the occurrences of [sep]; never the empty array. *)
Fixpoint split (sep : Ascii.ascii) (str : string) : list string :=
  match str with
  | EmptyString => [EmptyString]
  | String c rest =>
      if Ascii.eqb c sep then EmptyString :: split sep rest
      else match split sep rest with
           | piece :: pieces => String c piece :: pieces
           | [] => [String c EmptyString]
           end
  end.

(** White space removed by [trim], within ASCII: TAB, LF, VT, FF, CR and
    the space. *)
Definition isWhiteSpace (c : Ascii.ascii) : bool :=
  let n := Ascii.nat_of_ascii c in
  ((9 <=? n) && (n <=? 13) || (n =? 32))%nat.

Fixpoint trimStart (str : string) : string :=
  match str with
  | String c rest => if isWhiteSpace c then trimStart rest else str
  | EmptyString => EmptyString
  end.

Fixpoint trimEnd (str : string) : string :=
  match str with
  | EmptyString => EmptyString
  | String c rest =>
      match trimEnd rest with
      | EmptyString => if isWhiteSpace c then EmptyString else String c EmptyString
      | kept => String c kept
      end
  end.

Definition trim (str : string) : string := trimEnd (trimStart str).

(** [x || ''] where [x] is a string or [undefined]: the empty string and
    [undefined] are both falsy. *)
Definition orEmpty (x : option string) : string :=
  match x with
  | Some s => s
  | None => EmptyString
  end.

(** Truthiness of a string: every string but the empty one. *)
Definition truthy (s : string) : bool := negb (String.eqb s EmptyString).

(** [n.toString()] and [`${n}`] for an integer. *)
Definition toString (n : Z) : string := pretty n.

End Js.

(** ** The persistent store: [useLocalStorage] *)

(** What the hook does to the outside world, newest event first. *)
Inductive Event :=
  | SetItem (key text : string)
  | DispatchEvent (name : string)
  | ConsoleError (message : string).

Record Window := {
  localStorage : gmap string string;
  events : list Event
}.

Definition isSetItem (e : Event) : bool :=
  match e with
  | SetItem _ _ => true
  | _ => false
  end.

(** The writes made to the durable medium so far. *)
Definition writes (w : Window) : list Event := List.filter isSetItem (events w).

Definition console_error (message : string) (w : Window) : Window :=
  {| localStorage := localStorage w; events := ConsoleError message :: events w |}.

Definition setItem (key text : string) (w : Window) : Window :=
  {| localStorage := <[key := text]> (localStorage w);
     events := SetItem key text :: events w |}.

Definition dispatchEvent (name : string) (w : Window) : Window :=
  {| localStorage := localStorage w; events := DispatchEvent name :: events w |}.

Section PersistentStore.

(** The stored values and their textual format. [JSON_stringify] and
    [JSON_parse] answer [None] where the platform function throws.
    [JSON_stringify v = Some text] says that [text] is what
    [localStorage.setItem] receives: the text that [JSON.stringify]
    returns, or "undefined" where it returns [undefined] without throwing
    (for [undefined], a function or a symbol). *)
Context {V : Type}.
Variable JSON_stringify : V → option string.
Variable JSON_parse : string → option V.

(** One binding of the hook: its key and its React state. *)
Record Hook := {
  key : string;
  storedValue : V
}.

Definition setStoredValue (v : V) (h : Hook) : Hook :=
  {| key := key h; storedValue := v |}.

(** The argument of the setter: a value, or a function of the previous
    value ([value instanceof Function]). *)
Inductive SetArg :=
  | Literal (v : V)
  | Updater (f : V → V).

(** The initial read, [useState(() => { try { ... } catch { ... } })]:
    [item ? JSON.parse(item) : initialValue], and [initialValue] again
    when parsing throws. *)
Definition useLocalStorage (k : string) (initialValue : V) (w : Window)
  : Hook * Window :=
  match localStorage w !! k with
  | Some item =>
      if Js.truthy item then
        match JSON_parse item with
        | Some v => ({| key := k; storedValue := v |}, w)
        | None =>
            ({| key := k; storedValue := initialValue |},
             console_error "Error reading localStorage key" w)
        end
      else ({| key := k; storedValue := initialValue |}, w)
  | None => ({| key := k; storedValue := initialValue |}, w)
  end.

(** The listener of ['local-storage-update']: re-read the key and, when
    there is an item, take over what it parses to. *)
Definition onLocalStorageUpdate (h : Hook) (w : Window) : Hook * Window :=
  match localStorage w !! key h with
  | Some item =>
      if Js.truthy item then
        match JSON_parse item with
        | Some v => (setStoredValue v h, w)
        | None => (h, console_error "Error syncing localStorage" w)
        end
      else (h, w)
  | None => (h, w)
  end.

(** [value instanceof Function ? value(storedValue) : value]. *)
Definition valueToStore (h : Hook) (value : SetArg) : V :=
  match value with
  | Updater f => f (storedValue h)
  | Literal v => v
  end.

(** [setValue]: the state is set first, then the text is written, then
    the update event is dispatched (the listener of this binding runs
    before [dispatchEvent] returns). A throw of [JSON.stringify] is caught
    and logged; nothing done before it is undone. *)
Definition setValue (h : Hook) (value : SetArg) (w : Window) : Hook * Window :=
  let h1 := setStoredValue (valueToStore h value) h in
  match JSON_stringify (valueToStore h value) with
  | Some text =>
      let w1 := setItem (key h) text w in
      let w2 := dispatchEvent "local-storage-update" w1 in
      onLocalStorageUpdate h1 w2
  | None => (h1, console_error "Error setting localStorage key" w)
  end.

(** The handler of the cross-document ['storage'] event; [e.newValue] is
    [null] when the key was removed, and [JSON.parse(null)] reads the
    text ["null"]. *)
Definition handleStorageChange (eKey : string) (newValue : option string)
    (h : Hook) (w : Window) : Hook * Window :=
  if String.eqb eKey (key h) then
    match JSON_parse (default "null" newValue) with
    | Some v => (setStoredValue v h, w)
    | None => (h, console_error "Error parsing localStorage value" w)
    end
  else (h, w).

(** What a key holds as seen through the hook's reads: the parsed value,
    or nothing when the key is absent, empty or unparsable. *)
Definition persisted (k : string) (w : Window) : option V :=
  match localStorage w !! k with
  | Some item => if Js.truthy item then JSON_parse item else None
  | None => None
  end.

End PersistentStore.

Arguments Hook : clear implicits.
Arguments SetArg : clear implicits.

(** ** The application state: [HardTracker] *)

(** The value of the slot [todayTasks]. *)
Record Tasks := {
  morningWorkout : bool;
  eveningWorkout : bool;
  diet : bool;
  water1 : bool;
  water2 : bool;
  water3 : bool;
  water4 : bool;
  progressPhoto : bool;
  reading : bool
}.

(** One logged exercise, an element of [workouts[dayKey]]. *)
Record Exercise := {
  id : string;
  name : string;
  weight : string;
  sets : string;
  reps : string;
  notes : string
}.

(** The add form, [currentExercise]: an exercise without identifier. *)
Record ExerciseForm := {
  form_name : string;
  form_weight : string;
  form_sets : string;
  form_reps : string;
  form_notes : string
}.

(** An entry of the reference catalogue, [{ exercise, setsReps }]. *)
Record TemplateExercise := {
  exercise : string;
  setsReps : string
}.

(** The four slots bound with [useLocalStorage]: the React state of the
    four hooks. *)
Record Slots := {
  currentDayNumber : Z;
  completedDays : list Z;
  tasks : Tasks;
  workouts : gmap string (list Exercise)
}.

(** The durable medium as the four hooks read it back ([persisted] above,
    key by key): what the text under each key parses to, [None] for a key
    that is absent, empty or unparsable. *)
Record Persisted := {
  stored_currentDayNumber : option Z;
  stored_completedDays : option (list Z);
  stored_todayTasks : option Tasks;
  stored_workouts : option (gmap string (list Exercise))
}.

Record HardTracker := {
  slots : Slots;
  disk : Persisted;
  currentExercise : ExerciseForm;
  selectedDay : Z
}.

Definition defaultTasks : Tasks :=
  {| morningWorkout := false; eveningWorkout := false; diet := false;
     water1 := false; water2 := false; water3 := false; water4 := false;
     progressPhoto := false; reading := false |}.

Definition emptyForm : ExerciseForm :=
  {| form_name := EmptyString; form_weight := EmptyString;
     form_sets := EmptyString; form_reps := EmptyString;
     form_notes := EmptyString |}.

(** The defaults passed to the four [useLocalStorage] calls. *)
Definition defaultSlots : Slots :=
  {| currentDayNumber := 1; completedDays := []; tasks := defaultTasks;
     workouts := ∅ |}.

(** Every hook listens to ['local-storage-update'] and, when its key holds
    an item, replaces its state by what the item parses to. *)
Definition syncFromDisk (d : Persisted) (s : Slots) : Slots :=
  {| currentDayNumber := default (currentDayNumber s) (stored_currentDayNumber d);
     completedDays := default (completedDays s) (stored_completedDays d);
     tasks := default (tasks s) (stored_todayTasks d);
     workouts := default (workouts s) (stored_workouts d) |}.

(** The four setters returned by the hooks, on values that [JSON] writes
    and reads back unchanged (integers, booleans, strings, arrays and
    plain objects of them): the state is set, the text is written, and the
    update event makes every hook read its key again. *)
Definition setCurrentDayNumber (v : Z) (a : HardTracker) : HardTracker :=
  let d := {| stored_currentDayNumber := Some v;
              stored_completedDays := stored_completedDays (disk a);
              stored_todayTasks := stored_todayTasks (disk a);
              stored_workouts := stored_workouts (disk a) |} in
  let s := {| currentDayNumber := v;
              completedDays := completedDays (slots a);
              tasks := tasks (slots a);
              workouts := workouts (slots a) |} in
  {| slots := syncFromDisk d s; disk := d;
     currentExercise := currentExercise a; selectedDay := selectedDay a |}.

Definition setCompletedDays (v : list Z) (a : HardTracker) : HardTracker :=
  let d := {| stored_currentDayNumber := stored_currentDayNumber (disk a);
              stored_completedDays := Some v;
              stored_todayTasks := stored_todayTasks (disk a);
              stored_workouts := stored_workouts (disk a) |} in
  let s := {| currentDayNumber := currentDayNumber (slots a);
              completedDays := v;
              tasks := tasks (slots a);
              workouts := workouts (slots a) |} in
  {| slots := syncFromDisk d s; disk := d;
     currentExercise := currentExercise a; selectedDay := selectedDay a |}.

Definition setTasks (v : Tasks) (a : HardTracker) : HardTracker :=
  let d := {| stored_currentDayNumber := stored_currentDayNumber (disk a);
              stored_completedDays := stored_completedDays (disk a);
              stored_todayTasks := Some v;
              stored_workouts := stored_workouts (disk a) |} in
  let s := {| currentDayNumber := currentDayNumber (slots a);
              completedDays := completedDays (slots a);
              tasks := v;
              workouts := workouts (slots a) |} in
  {| slots := syncFromDisk d s; disk := d;
     currentExercise := currentExercise a; selectedDay := selectedDay a |}.

Definition setWorkouts (v : gmap string (list Exercise)) (a : HardTracker)
  : HardTracker :=
  let d := {| stored_currentDayNumber := stored_currentDayNumber (disk a);
              stored_completedDays := stored_completedDays (disk a);
              stored_todayTasks := stored_todayTasks (disk a);
              stored_workouts := Some v |} in
  let s := {| currentDayNumber := currentDayNumber (slots a);
              completedDays := completedDays (slots a);
              tasks := tasks (slots a);
              workouts := v |} in
  {| slots := syncFromDisk d s; disk := d;
     currentExercise := currentExercise a; selectedDay := selectedDay a |}.

Definition setCurrentExercise (f : ExerciseForm) (a : HardTracker) : HardTracker :=
  {| slots := slots a; disk := disk a; currentExercise := f;
     selectedDay := selectedDay a |}.

(** *** Day progression *)

(** The guard of [completeDay]: [!completedDays.includes(currentDayNumber)]. *)
Definition notYetCompleted (a : HardTracker) : bool :=
  negb (Js.includes (completedDays (slots a)) (currentDayNumber (slots a))).

(** [completeDay]: both setters receive values computed from the state of
    the render in which the handler was created. *)
Definition completeDay (a : HardTracker) : HardTracker :=
  if notYetCompleted a then
    setCurrentDayNumber (currentDayNumber (slots a) + 1)
      (setCompletedDays (completedDays (slots a) ++ [currentDayNumber (slots a)]) a)
  else a.

(** The button "Reset All Progress" of the profile tab is rendered without
    an [onClick] handler: a click reaches no code of the component. *)
Definition clickResetAllProgress (a : HardTracker) : HardTracker := a.

(** *** Weekdays *)

Definition weekdays : list string :=
  ["Sunday"; "Monday"; "Tuesday"; "Wednesday"; "Thursday"; "Friday"; "Saturday"].

(** The effect that follows [selectedDay]: the weekday handed to
    [setSelectedWeekday]. [currentDay] is [today.getDay()]. *)
Definition selectedWeekdayEffect (currentDay selectedDay currentDayNumber : Z)
  : option string :=
  let dayDifference := selectedDay - currentDayNumber in
  let newWeekdayIndex := Js.remainder (currentDay + dayDifference) 7 in
  let adjustedIndex :=
    if newWeekdayIndex <? 0 then 7 + newWeekdayIndex else newWeekdayIndex in
  Js.index weekdays adjustedIndex.

(** The weekday shown in the label of option [i] (0 to 74) of the day
    selector: [weekdays[(currentDay + (i+1) - currentDayNumber) % 7]]. *)
Definition daySelectOptionWeekday (currentDay i currentDayNumber : Z)
  : option string :=
  Js.index weekdays (Js.remainder (currentDay + (i + 1) - currentDayNumber) 7).

(** *** The workout log *)

(** [`day-${selectedDay}`]. *)
Definition dayKeyOf (selectedDay : Z) : string := "day-" +:+ Js.toString selectedDay.

(** [workouts[dayKey] || []]. *)
Definition dayWorkouts (dayKey : string) (ws : gmap string (list Exercise))
  : list Exercise :=
  default [] (ws !! dayKey).

(** The number of entries logged under a day key. *)
Definition entryCount (dayKey : string) (a : HardTracker) : nat :=
  length (dayWorkouts dayKey (workouts (slots a))).

(** [addExercise]; [now] is the reading of [Date.now()]. *)
Definition addExercise (now : Z) (a : HardTracker) : HardTracker :=
  if negb (Js.truthy (form_name (currentExercise a))) then a
  else
    let dayKey := dayKeyOf (selectedDay a) in
    let currentDayWorkouts := dayWorkouts dayKey (workouts (slots a)) in
    let entry :=
      {| id := Js.toString now;
         name := form_name (currentExercise a);
         weight := form_weight (currentExercise a);
         sets := form_sets (currentExercise a);
         reps := form_reps (currentExercise a);
         notes := form_notes (currentExercise a) |} in
    setCurrentExercise emptyForm
      (setWorkouts (<[dayKey := currentDayWorkouts ++ [entry]]> (workouts (slots a))) a).

(** [deleteExercise]: [filter(ex => ex.id !== exerciseId)]. *)
Definition deleteExercise (dayKey exerciseId : string) (a : HardTracker)
  : HardTracker :=
  let currentDayWorkouts := dayWorkouts dayKey (workouts (slots a)) in
  let updatedWorkouts := filter (λ ex, id ex ≠ exerciseId) currentDayWorkouts in
  setWorkouts (<[dayKey := updatedWorkouts]> (workouts (slots a))) a.

(** The two fields cut out of a template's text:
    [setsReps.split('x')[0]?.trim() || ''] and the same with index 1. *)
Definition templateSets (text : string) : string :=
  Js.orEmpty (Js.trim <$> Js.split "x"%char text !! 0%nat).

Definition templateReps (text : string) : string :=
  Js.orEmpty (Js.trim <$> Js.split "x"%char text !! 1%nat).

(** The entry built from the template at position [i] of the batch; [now]
    and [random] give, for each position, the reading of [Date.now()] and
    the text [Math.random().toString(36).substr(2, 9)]. *)
Definition fromTemplate (now : nat → Z) (random : nat → string)
    (i : nat) (ex : TemplateExercise) : Exercise :=
  {| name := exercise ex;
     sets := templateSets (setsReps ex);
     reps := templateReps (setsReps ex);
     weight := EmptyString;
     notes := EmptyString;
     id := "template-" +:+ Js.toString (now i) +:+ "-" +:+ random i |}.

(** [addAllFromTemplate]. *)
Definition addAllFromTemplate (now : nat → Z) (random : nat → string)
    (exercises : list TemplateExercise) (a : HardTracker) : HardTracker :=
  match exercises with
  | [] => a
  | _ =>
      let dayKey := dayKeyOf (selectedDay a) in
      let currentDayWorkouts := dayWorkouts dayKey (workouts (slots a)) in
      let newExercises := imap (fromTemplate now random) exercises in
      setWorkouts
        (<[dayKey := currentDayWorkouts ++ newExercises]> (workouts (slots a))) a
  end.

(** ** A fragment of JSON for concrete runs of the store

    Integers print in decimal and are read back from that same text;
    [JSON.stringify] throws a [TypeError] on a [BigInt]; for [undefined]
    it returns [undefined], which [setItem] stores as the text
    "undefined", a text that [JSON.parse] rejects. *)
Inductive JsValue :=
  | JsNumber (n : Z)
  | JsBigInt (n : Z)
  | JsUndefined.

Definition stringifyJs (v : JsValue) : option string :=
  match v with
  | JsNumber n => Some (Js.toString n)
  | JsBigInt _ => None
  | JsUndefined => Some "undefined"
  end.

Definition parseJs (text : string) : option JsValue :=
  match NilZero.int_of_string text with
  | Some d =>
      if String.eqb (Js.toString (Z.of_int d)) text
      then Some (JsNumber (Z.of_int d)) else None
  | None => None
  end.

(** ** Numbers that are not integers

    The two percentages divide before they multiply, so they go through
    binary64 fractions. *)

Module JsMath.

(** An integer below 2^53 as a JavaScript number. *)
Definition number (n : Z) : float := PrimFloat.of_uint63 (Uint63.of_Z n).

(** [Math.floor(x)] as an integer; [None] for [NaN] and the infinities. *)
Definition floor (x : float) : option Z :=
  match Prim2SF x with
  | S754_zero _ => Some 0
  | S754_finite negative m e =>
      let signed := if negative then Z.neg m else Z.pos m in
      Some (if 0 <=? e then signed * 2 ^ e else signed / 2 ^ (- e))
  | S754_infinity _ => None
  | S754_nan => None
  end.

(** [Math.floor((count / total) * 100)]. *)
Definition percentage (count total : Z) : option Z :=
  floor (PrimFloat.mul (PrimFloat.div (number count) (number total)) (number 100)).

End JsMath.

(** ** The rest of the component *)

(** *** The daily tasks *)

(** The nine keys of [todayTasks]; [toggleTask] is called with these nine
    literals and nothing else. *)
Inductive TaskName :=
  | MorningWorkout | EveningWorkout | Diet
  | Water1 | Water2 | Water3 | Water4
  | ProgressPhoto | Reading.

Definition allTaskNames : list TaskName :=
  [MorningWorkout; EveningWorkout; Diet; Water1; Water2; Water3; Water4;
   ProgressPhoto; Reading].

(** [tasks[taskName]]. *)
Definition taskValue (taskName : TaskName) (t : Tasks) : bool :=
  match taskName with
  | MorningWorkout => morningWorkout t
  | EveningWorkout => eveningWorkout t
  | Diet => diet t
  | Water1 => water1 t
  | Water2 => water2 t
  | Water3 => water3 t
  | Water4 => water4 t
  | ProgressPhoto => progressPhoto t
  | Reading => reading t
  end.

(** [{ ...tasks, [taskName]: value }]. *)
Definition withTask (taskName : TaskName) (value : bool) (t : Tasks) : Tasks :=
  {| morningWorkout := if taskName is MorningWorkout then value else morningWorkout t;
     eveningWorkout := if taskName is EveningWorkout then value else eveningWorkout t;
     diet := if taskName is Diet then value else diet t;
     water1 := if taskName is Water1 then value else water1 t;
     water2 := if taskName is Water2 then value else water2 t;
     water3 := if taskName is Water3 then value else water3 t;
     water4 := if taskName is Water4 then value else water4 t;
     progressPhoto := if taskName is ProgressPhoto then value else progressPhoto t;
     reading := if taskName is Reading then value else reading t |}.

(** [toggleTask]. *)
Definition toggleTask (taskName : TaskName) (a : HardTracker) : HardTracker :=
  setTasks (withTask taskName (negb (taskValue taskName (tasks (slots a))))
              (tasks (slots a))) a.

(** [Object.values(tasks).filter(Boolean).length]. *)
Definition tasksCompletedCount (t : Tasks) : Z :=
  Z.of_nat (length (List.filter (λ b : bool, b)
    [morningWorkout t; eveningWorkout t; diet t; water1 t; water2 t;
     water3 t; water4 t; progressPhoto t; reading t])).

(** [Math.floor((tasksCompletedCount / 9) * 100)]. *)
Definition tasksCompletedPercentage (t : Tasks) : option Z :=
  JsMath.percentage (tasksCompletedCount t) 9.

(** [Math.floor((completedDays.length / 75) * 100)]. *)
Definition progressPercentage (completedDays : list Z) : option Z :=
  JsMath.percentage (Z.of_nat (length completedDays)) 75.

(** The button "Complete Day": [disabled={tasksCompletedCount < 9}],
    [onClick={completeDay}]. A disabled button runs no handler. *)
Definition clickCompleteDay (a : HardTracker) : HardTracker :=
  if tasksCompletedCount (tasks (slots a)) <? 9 then a else completeDay a.

(** *** The calendar *)

(** One cell of the calendar: its number and the two flags that style it. *)
Record DayCell := {
  cellDay : Z;
  isCompleted : bool;
  isCurrent : bool
}.

(** [renderCalendarGrid]: the loop [for (let i = 1; i <= 75; i++)]. *)
Definition renderCalendarGrid (a : HardTracker) : list DayCell :=
  (λ i : Z, {| cellDay := i;
               isCompleted := Js.includes (completedDays (slots a)) i;
               isCurrent := i =? currentDayNumber (slots a) |})
    <$> (Z.of_nat <$> seq 1 75).

(** *** The add form *)

(** The [name] attributes of the five inputs bound to
    [handleExerciseChange]. *)
Inductive FormField := FieldName | FieldWeight | FieldSets | FieldReps | FieldNotes.

(** [handleExerciseChange]: [{ ...currentExercise, [name]: value }] with
    [name] and [value] taken from the event's target. *)
Definition handleExerciseChange (field : FormField) (value : string)
    (a : HardTracker) : HardTracker :=
  let f := currentExercise a in
  setCurrentExercise
    {| form_name := if field is FieldName then value else form_name f;
       form_weight := if field is FieldWeight then value else form_weight f;
       form_sets := if field is FieldSets then value else form_sets f;
       form_reps := if field is FieldReps then value else form_reps f;
       form_notes := if field is FieldNotes then value else form_notes f |} a.

(** *** The reference catalogue, [data/workoutData.js] *)

(** An element of [workoutPlan.weeklySchedule]; the fallback object of
    [getCurrentWorkoutSchedule] has no [day]. *)
Record ScheduleEntry := {
  scheduleDay : option string;
  morning : string;
  evening : string
}.

(** A value of [workoutPlan.weightTraining]. *)
Record WorkoutTemplate := {
  title : string;
  exercises : list TemplateExercise
}.

Definition weeklySchedule : list ScheduleEntry :=
  [ {| scheduleDay := Some "Monday";
       morning := "Sprint Intervals + Abs";
       evening := "Upper Body Strength (Push focus)" |};
    {| scheduleDay := Some "Tuesday";
       morning := "Abs + Fast Walk/Light Jog";
       evening := "Lower Body Strength (Glutes focus)" |};
    {| scheduleDay := Some "Wednesday";
       morning := "Abs + Fast Walk";
       evening := "Upper Body (Pull focus)" |};
    {| scheduleDay := Some "Thursday";
       morning := "Abs + Fast Walk";
       evening := "Lower Body (Hamstrings & Quads)" |};
    {| scheduleDay := Some "Friday";
       morning := "Abs + Light Cardio";
       evening := "Full Body Functional/HIIT" |};
    {| scheduleDay := Some "Saturday";
       morning := "Long Outdoor Run + Abs";
       evening := "Light Weights or Active Recovery" |};
    {| scheduleDay := Some "Sunday";
       morning := "Abs + Stretching";
       evening := "Skipping Rope (HIIT) – 45 min" |} ].

Definition abWorkout : list TemplateExercise :=
  [ {| exercise := "Plank"; setsReps := "3 x 45 sec" |};
    {| exercise := "Russian Twists"; setsReps := "3 x 30 reps (15/side)" |};
    {| exercise := "Leg Raises"; setsReps := "3 x 15 reps" |};
    {| exercise := "Bicycle Crunches"; setsReps := "3 x 20 reps (10/side)" |};
    {| exercise := "Mountain Climbers"; setsReps := "3 x 30 sec" |};
    {| exercise := "Flutter Kicks"; setsReps := "3 x 30 sec" |} ].

Definition weightTraining : gmap string WorkoutTemplate :=
  list_to_map
  [ ("Monday",
     {| title := "Push - Chest, Shoulders, Triceps";
        exercises :=
          [ {| exercise := "Barbell Bench Press"; setsReps := "4 x 10" |};
            {| exercise := "Shoulder Press (Dumbbell)"; setsReps := "3 x 12" |};
            {| exercise := "Incline Dumbbell Press"; setsReps := "3 x 10" |};
            {| exercise := "Dumbbell Lateral Raises"; setsReps := "3 x 15" |};
            {| exercise := "Tricep Dips"; setsReps := "3 x 15" |};
            {| exercise := "Push-Ups (Finisher)"; setsReps := "2 x Max" |} ] |});
    ("Tuesday",
     {| title := "Glutes & Legs (Posterior Chain)";
        exercises :=
          [ {| exercise := "Barbell Hip Thrusts"; setsReps := "4 x 12" |};
            {| exercise := "Romanian Deadlifts"; setsReps := "4 x 10" |};
            {| exercise := "Cable Kickbacks"; setsReps := "3 x 15" |};
            {| exercise := "Walking Lunges"; setsReps := "3 x 12 per leg" |};
            {| exercise := "Glute Bridges"; setsReps := "3 x 20" |} ] |});
    ("Wednesday",
     {| title := "Pull - Back & Biceps";
        exercises :=
          [ {| exercise := "Lat Pulldown or Pullups"; setsReps := "3 x 10" |};
            {| exercise := "Dumbbell Rows"; setsReps := "4 x 10 per side" |};
            {| exercise := "Seated Cable Rows"; setsReps := "3 x 12" |};
            {| exercise := "Barbell Curls"; setsReps := "3 x 12" |};
            {| exercise := "Hammer Curls"; setsReps := "3 x 12" |} ] |});
    ("Thursday",
     {| title := "Legs - Quads, Hamstrings";
        exercises :=
          [ {| exercise := "Barbell Squats"; setsReps := "4 x 10" |};
            {| exercise := "Leg Press"; setsReps := "3 x 12" |};
            {| exercise := "Bulgarian Split Squats"; setsReps := "3 x 10 per leg" |};
            {| exercise := "Hamstring Curls"; setsReps := "3 x 15" |};
            {| exercise := "Calf Raises"; setsReps := "3 x 20" |} ] |});
    ("Friday",
     {| title := "Full Body Functional/HIIT";
        exercises :=
          [ {| exercise := "Kettlebell Swings"; setsReps := "4 x 15" |};
            {| exercise := "Box Jumps or Jump Squats"; setsReps := "3 x 15" |};
            {| exercise := "Dumbbell Thrusters"; setsReps := "3 x 12" |};
            {| exercise := "Renegade Rows"; setsReps := "3 x 12" |};
            {| exercise := "Burpees"; setsReps := "3 x 15" |} ] |});
    ("Saturday",
     {| title := "Active Recovery (Light Weights + Mobility)";
        exercises :=
          [ {| exercise := "Light Dumbbell Curls"; setsReps := "2 x 15" |};
            {| exercise := "Lateral Band Walks"; setsReps := "2 x 20 steps" |};
            {| exercise := "Stability Ball Crunches"; setsReps := "2 x 15" |};
            {| exercise := "Resistance Band Rows"; setsReps := "2 x 15" |};
            {| exercise := "Deep Stretch/Yoga Flow"; setsReps := "15 min" |} ] |});
    ("Sunday",
     {| title := "Cardio – Skipping Rope Routine";
        exercises :=
          [ {| exercise := "Skipping Intervals";
               setsReps := "5 min warmup + 10 rounds 2-min skip / 1-min rest" |};
            {| exercise := "Jump Variations"; setsReps := "Alternate feet, high knees" |};
            {| exercise := "Cooldown Stretch"; setsReps := "10 min total body" |} ] |}) ].

(** [getCurrentWorkoutSchedule]: the entry of today's weekday
    ([weekdays[currentDay]]), or the rest-day object. *)
Definition getCurrentWorkoutSchedule (currentDay : Z) : ScheduleEntry :=
  let currentWeekday := Js.index weekdays currentDay in
  match List.find (λ schedule, bool_decide (scheduleDay schedule = currentWeekday))
          weeklySchedule with
  | Some schedule => schedule
  | None => {| scheduleDay := None; morning := "Rest Day"; evening := "Rest Day" |}
  end.

(** [getSelectedDayWorkout]: [workoutPlan.weightTraining[selectedWeekday] || null],
    where the state [selectedWeekday] is a weekday name or [undefined]. *)
Definition getSelectedDayWorkout (selectedWeekday : option string)
  : option WorkoutTemplate :=
  match selectedWeekday with
  | Some weekday => weightTraining !! weekday
  | None => None
  end.

(** *** Regular expressions, as far as [prefillExercise] uses them

    Sequences, alternatives, capturing groups, literal text and greedy
    repetitions of a character class. A match is searched by backtracking:
    [run] lists the ways a pattern matches at the start of a text, the
    preferred one first, each with the text left over and the captures. *)

Module RegExp.

Inductive CharClass :=
  | Digit          (* \d *)
  | WhiteSpace.    (* \s *)

Definition inClass (c : CharClass) (x : Ascii.ascii) : bool :=
  match c with
  | Digit => let n := Ascii.nat_of_ascii x in ((48 <=? n) && (n <=? 57))%nat
  | WhiteSpace => Js.isWhiteSpace x
  end.

Inductive Pattern :=
  | Lit (text : string)
  | Star (c : CharClass)
  | Plus (c : CharClass)
  | Seq (p q : Pattern)
  | Alt (p q : Pattern)
  | Group (n : nat) (p : Pattern).

(** The captures made so far, the latest first. *)
Definition Captures := list (nat * string).

Definition capture (n : nat) (caps : Captures) : option string :=
  snd <$> List.find (λ entry, Nat.eqb (fst entry) n) caps.

(** The text left after a literal, when the text starts with it. *)
Fixpoint afterLit (text str : string) : option string :=
  match text, str with
  | EmptyString, _ => Some str
  | String c text', String d str' =>
      if Ascii.eqb c d then afterLit text' str' else None
  | String _ _, EmptyString => None
  end.

(** The texts left after zero or more characters of a class, the longest
    run first. *)
Fixpoint afterStar (c : CharClass) (str : string) : list string :=
  match str with
  | String x rest => if inClass c x then afterStar c rest ++ [str] else [str]
  | EmptyString => [str]
  end.

Definition afterPlus (c : CharClass) (str : string) : list string :=
  match str with
  | String x rest => if inClass c x then afterStar c rest else []
  | EmptyString => []
  end.

(** The part of [str] in front of its suffix [rest]. *)
Definition consumed (str rest : string) : string :=
  String.substring 0 (String.length str - String.length rest) str.

Fixpoint run (p : Pattern) (str : string) (caps : Captures)
  : list (string * Captures) :=
  match p with
  | Lit text =>
      match afterLit text str with
      | Some rest => [(rest, caps)]
      | None => []
      end
  | Star c => (λ rest, (rest, caps)) <$> afterStar c str
  | Plus c => (λ rest, (rest, caps)) <$> afterPlus c str
  | Seq p q => mbind (λ r : string * Captures, run q r.1 r.2) (run p str caps)
  | Alt p q => run p str caps ++ run q str caps
  | Group n p =>
      (λ r : string * Captures, (r.1, (n, consumed str r.1) :: r.2))
        <$> run p str caps
  end.

(** [str.match(pattern)] without the [g] flag: the preferred match at the
    first position that has one; [None] is [null]. *)
Fixpoint exec (p : Pattern) (str : string) : option Captures :=
  match run p str [] with
  | r :: _ => Some r.2
  | [] =>
      match str with
      | String _ rest => exec p rest
      | EmptyString => None
      end
  end.

End RegExp.

(** [/(\d+)\s*x\s*(\d+|Max|max|\d+\s*sec|\d+\s*min)/]: first the five
    alternatives of the second group, in the order they are written. *)
Definition repsAlternatives : RegExp.Pattern :=
  RegExp.Alt (RegExp.Plus RegExp.Digit)
 (RegExp.Alt (RegExp.Lit "Max")
 (RegExp.Alt (RegExp.Lit "max")
 (RegExp.Alt
    (RegExp.Seq (RegExp.Plus RegExp.Digit)
       (RegExp.Seq (RegExp.Star RegExp.WhiteSpace) (RegExp.Lit "sec")))
    (RegExp.Seq (RegExp.Plus RegExp.Digit)
       (RegExp.Seq (RegExp.Star RegExp.WhiteSpace) (RegExp.Lit "min")))))).

Definition setsRepsPattern : RegExp.Pattern :=
  RegExp.Seq (RegExp.Group 1 (RegExp.Plus RegExp.Digit))
 (RegExp.Seq (RegExp.Star RegExp.WhiteSpace)
 (RegExp.Seq (RegExp.Lit "x")
 (RegExp.Seq (RegExp.Star RegExp.WhiteSpace)
   (RegExp.Group 2 repsAlternatives)))).

(** The pair [sets], [reps] that [prefillExercise] computes from the text
    of a template. *)
Definition parseSetsReps (setsReps : string) : string * string :=
  if Js.truthy setsReps then
    match RegExp.exec setsRepsPattern setsReps with
    | Some caps =>
        (Js.orEmpty (RegExp.capture 1 caps), Js.orEmpty (RegExp.capture 2 caps))
    | None => (EmptyString, EmptyString)
    end
  else (EmptyString, EmptyString).

(** [prefillExercise]: the form is replaced, nothing is stored. *)
Definition prefillExercise (exerciseName setsReps : string) (a : HardTracker)
  : HardTracker :=
  setCurrentExercise
    {| form_name := exerciseName;
       form_weight := EmptyString;
       form_sets := (parseSetsReps setsReps).1;
       form_reps := (parseSetsReps setsReps).2;
       form_notes := EmptyString |} a.

(** ** Start-up: [initializeLocalStorage] of [index.js] *)

Definition doubleQuote : string := String "034"%char EmptyString.

(** [JSON.stringify] of an object of the shape of [todayTasks]. *)
Definition stringifyTasks (t : Tasks) : string :=
  let member (k : string) (v : bool) :=
    doubleQuote +:+ k +:+ doubleQuote +:+ ":" +:+ (if v then "true" else "false") in
  "{" +:+ member "morningWorkout" (morningWorkout t)
  +:+ "," +:+ member "eveningWorkout" (eveningWorkout t)
  +:+ "," +:+ member "diet" (diet t)
  +:+ "," +:+ member "water1" (water1 t)
  +:+ "," +:+ member "water2" (water2 t)
  +:+ "," +:+ member "water3" (water3 t)
  +:+ "," +:+ member "water4" (water4 t)
  +:+ "," +:+ member "progressPhoto" (progressPhoto t)
  +:+ "," +:+ member "reading" (reading t) +:+ "}".

(** [if (!localStorage.getItem(k)) { localStorage.setItem(k, text); }]. *)
Definition setItemIfMissing (k text : string) (w : Window) : Window :=
  match localStorage w !! k with
  | Some item => if Js.truthy item then w else setItem k text w
  | None => setItem k text w
  end.

Definition initializeLocalStorage (w : Window) : Window :=
  setItemIfMissing "workouts" "{}"
    (setItemIfMissing "todayTasks" (stringifyTasks defaultTasks)
       (setItemIfMissing "completedDays" "[]"
          (setItemIfMissing "currentDayNumber" "1" w))).

(** ** Notions used in the statements *)

(** The ledger after [k] completed days, in recording order: 1 to [k]. *)
Definition oneTo (k : nat) : list Z := Z.of_nat <$> seq 1 k.

(** The ledger is exactly the days before the current one. *)
Definition contiguous (a : HardTracker) : Prop :=
  ∃ k : nat, currentDayNumber (slots a) = Z.of_nat k + 1
             ∧ completedDays (slots a) = oneTo k.

(** The identifiers logged under a day key, in order. *)
Definition loggedIds (dayKey : string) (a : HardTracker) : list string :=
  id <$> dayWorkouts dayKey (workouts (slots a)).

(** ** Concrete states used in the examples below *)

(** A binding of [currentDayNumber] holding 1, over a medium holding the
    same, and the medium with unparsable text under that key. *)
Definition dayHook : Hook JsValue :=
  {| key := "currentDayNumber"; storedValue := JsNumber 1 |}.

Definition dayWindow : Window :=
  {| localStorage := {["currentDayNumber" := "1"]}; events := [] |}.

Definition corruptedWindow : Window :=
  {| localStorage := {["currentDayNumber" := "{oops"]}; events := [] |}.

Definition emptyDisk : Persisted :=
  {| stored_currentDayNumber := None; stored_completedDays := None;
     stored_todayTasks := None; stored_workouts := None |}.

(** First run: default slots, nothing stored, empty form, day 1 selected. *)
Definition freshTracker : HardTracker :=
  {| slots := defaultSlots; disk := emptyDisk; currentExercise := emptyForm;
     selectedDay := 1 |}.

(** Day 1 was completed once; the ledger holds 1 and the counter is back
    at 1 (as after a write of another document to [currentDayNumber]). *)
Definition recordedTracker : HardTracker :=
  {| slots := {| currentDayNumber := 1; completedDays := [1];
                 tasks := defaultTasks; workouts := ∅ |};
     disk := emptyDisk; currentExercise := emptyForm; selectedDay := 1 |}.

Definition squatForm : ExerciseForm :=
  {| form_name := "Squat"; form_weight := "135"; form_sets := "4";
     form_reps := "8"; form_notes := EmptyString |}.

(** The form filled in and submitted once. *)
Definition addedOnce : HardTracker :=
  addExercise 1700000000000 (setCurrentExercise squatForm freshTracker).

(** The form filled in and submitted twice while the clock reads the same
    millisecond. *)
Definition addedTwice : HardTracker :=
  addExercise 1700000000000
    (setCurrentExercise squatForm
       (addExercise 1700000000000 (setCurrentExercise squatForm freshTracker))).

(** Two entries of the reference catalogue ([workoutData.js], Saturday and
    Monday) and the example of the specification. *)
Definition yogaFlow : TemplateExercise :=
  {| exercise := "Deep Stretch/Yoga Flow"; setsReps := "15 min" |}.

Definition pushUps : TemplateExercise :=
  {| exercise := "Push-Ups (Finisher)"; setsReps := "2 x Max" |}.

Definition plank : TemplateExercise :=
  {| exercise := "Plank"; setsReps := "3 x 45 sec" |}.

(** A clock and a random source that answer the same at every call. *)
Definition frozenClock (i : nat) : Z := 1700000000000.

Definition fixedSuffix (i : nat) : string := "k3f9q0z1a".

(** Day 2 reached: day 1 completed from the first run. *)
Definition dayTwoTracker : HardTracker := completeDay freshTracker.

(** A slot agrees with the medium when its key is absent (or unreadable)
    or reads back as the slot's value. *)
Definition agrees {A} (stored : option A) (value : A) : Prop :=
  stored = None ∨ stored = Some value.

(** The four slots agree with the medium: what holds after start-up and
    after every successful write. *)
Definition inSync (a : HardTracker) : Prop :=
  agrees (stored_currentDayNumber (disk a)) (currentDayNumber (slots a))
  ∧ agrees (stored_completedDays (disk a)) (completedDays (slots a))
  ∧ agrees (stored_todayTasks (disk a)) (tasks (slots a))
  ∧ agrees (stored_workouts (disk a)) (workouts (slots a)).

(** The form filled in and submitted once per element of [entries], each
    time with the clock reading that comes with the form. *)
Definition addExercises (entries : list (Z * ExerciseForm)) (a : HardTracker)
  : HardTracker :=
  foldl (λ acc entry, addExercise entry.1 (setCurrentExercise entry.2 acc)) a entries.

(** All nine tasks checked. *)
Definition allTasksDone : Tasks :=
  {| morningWorkout := true; eveningWorkout := true; diet := true;
     water1 := true; water2 := true; water3 := true; water4 := true;
     progressPhoto := true; reading := true |}.

(** The first run with the nine tasks checked. *)
Definition readyTracker : HardTracker :=
  {| slots := {| currentDayNumber := 1; completedDays := [];
                 tasks := allTasksDone; workouts := ∅ |};
     disk := emptyDisk; currentExercise := emptyForm; selectedDay := 1 |}.

Definition benchForm : ExerciseForm :=
  {| form_name := "Bench Press"; form_weight := "95"; form_sets := "3";
     form_reps := "10"; form_notes := EmptyString |}.

(** A random source that answers differently at every call. *)
Definition countingSuffix (i : nat) : string := pretty i.

(** An updater on the fragment: a number goes up by one. *)
Definition nextNumber (v : JsValue) : JsValue :=
  match v with
  | JsNumber n => JsNumber (n + 1)
  | JsBigInt n => JsBigInt (n + 1)
  | JsUndefined => JsUndefined
  end.

(** How many of the identifiers are the given one. *)
Definition occurrences (exerciseId : string) (ids : list string) : nat :=
  length (filter (λ i, i = exerciseId) ids).

(** Texts made of characters of one class, and non-empty texts of digits. *)
Definition allIn (c : RegExp.CharClass) (str : string) : Prop :=
  Forall (λ x, RegExp.inClass c x = true) (String.list_ascii_of_string str).

Definition digitsOnly (str : string) : Prop :=
  str ≠ EmptyString ∧ allIn RegExp.Digit str.

(** The first character of a text belongs to a class. *)
Definition startsIn (c : RegExp.CharClass) (str : string) : bool :=
  match str with
  | String x _ => RegExp.inClass c x
  | EmptyString => false
  end.

(** ** Properties of the persistent store *)

Section StoreProperties.

Context {V : Type}.
Variable JSON_stringify : V → option string.
Variable JSON_parse : string → option V.

Lemma writes_console_error message w :
  writes (console_error message w) = writes w.
Proof. reflexivity. Qed.

Lemma writes_dispatchEvent name w :
  writes (dispatchEvent name w) = writes w.
Proof. reflexivity. Qed.

Lemma writes_setItem k text w :
  writes (setItem k text w) = SetItem k text :: writes w.
Proof. reflexivity. Qed.

(** The initial read answers [persisted], or the default. *)
Lemma useLocalStorage_value k (initialValue : V) w :
  storedValue (useLocalStorage JSON_parse k initialValue w).1
  = default initialValue (persisted JSON_parse k w).
Proof.
  unfold useLocalStorage, persisted.
  destruct (localStorage w !! k) as [item|]; [|reflexivity].
  destruct (Js.truthy item); [|reflexivity].
  destruct (JSON_parse item); reflexivity.
Qed.

(** No read of the hook writes: the medium and the list of writes are
    those of before. *)
Lemma useLocalStorage_reads_only k (initialValue : V) w :
  localStorage (useLocalStorage JSON_parse k initialValue w).2 = localStorage w
  ∧ writes (useLocalStorage JSON_parse k initialValue w).2 = writes w.
Proof.
  unfold useLocalStorage.
  destruct (localStorage w !! k) as [item|]; [|done].
  destruct (Js.truthy item); [|done].
  destruct (JSON_parse item); done.
Qed.

Lemma onLocalStorageUpdate_value (h : Hook V) w :
  storedValue (onLocalStorageUpdate JSON_parse h w).1
  = default (storedValue h) (persisted JSON_parse (key h) w).
Proof.
  unfold onLocalStorageUpdate, persisted.
  destruct (localStorage w !! key h) as [item|]; [|reflexivity].
  destruct (Js.truthy item); [|reflexivity].
  destruct (JSON_parse item); reflexivity.
Qed.

(** A successful write of a value that the format reads back: the state
    and the medium both hold the value afterwards. This is the setter
    that the application model uses for its four slots. *)
Lemma setValue_read_back (h : Hook V) value w text :
  JSON_stringify (valueToStore h value) = Some text →
  Js.truthy text = true →
  JSON_parse text = Some (valueToStore h value) →
  storedValue (setValue JSON_stringify JSON_parse h value w).1 = valueToStore h value
  ∧ persisted JSON_parse (key h) (setValue JSON_stringify JSON_parse h value w).2
    = Some (valueToStore h value).
Proof.
  intros Hs Ht Hp. unfold setValue. rewrite Hs.
  unfold onLocalStorageUpdate, persisted. simpl.
  rewrite lookup_insert_eq, Ht, Hp. simpl.
  rewrite lookup_insert_eq, Ht, Hp. done.
Qed.

(** C9. [get(key, default)] is the initial read of the hook. When the key
    is absent from the medium, or holds text that fails to parse, the
    read answers the default and writes nothing: the medium is the one
    of before (the key is still absent, or still holds the same text)
    and no [setItem] was issued. *)
Theorem useLocalStorage_absent_or_corrupted k (initialValue : V) w :
  (localStorage w !! k = None
   ∨ ∃ item, localStorage w !! k = Some item ∧ JSON_parse item = None) →
  storedValue (useLocalStorage JSON_parse k initialValue w).1 = initialValue
  ∧ localStorage (useLocalStorage JSON_parse k initialValue w).2 = localStorage w
  ∧ writes (useLocalStorage JSON_parse k initialValue w).2 = writes w.
Proof.
  intros Hslot. split; [|apply useLocalStorage_reads_only].
  rewrite useLocalStorage_value. unfold persisted.
  destruct Hslot as [-> | (item & -> & Hparse)]; [reflexivity|].
  rewrite Hparse. by destruct (Js.truthy item).
Qed.

(** The throwing case of [setValue]. When [JSON.stringify] throws during
    [setValue], the write is aborted: the medium is unchanged, no
    [setItem] and no update event are issued, the error is logged. The
    state of the hook was set before the text was computed and stays
    set: the mirror holds the new value. *)
Theorem setValue_stringify_throws (h : Hook V) value w :
  JSON_stringify (valueToStore h value) = None →
  storedValue (setValue JSON_stringify JSON_parse h value w).1 = valueToStore h value
  ∧ localStorage (setValue JSON_stringify JSON_parse h value w).2 = localStorage w
  ∧ writes (setValue JSON_stringify JSON_parse h value w).2 = writes w
  ∧ events (setValue JSON_stringify JSON_parse h value w).2
    = ConsoleError "Error setting localStorage key" :: events w.
Proof.
  intros Hthrow. unfold setValue. rewrite Hthrow. done.
Qed.

End StoreProperties.

(** C9 on the fragment: unparsable text under [currentDayNumber]. *)
Lemma useLocalStorage_absent_or_corrupted_witness :
  storedValue (useLocalStorage parseJs "currentDayNumber" (JsNumber 1) corruptedWindow).1
  = JsNumber 1
  ∧ localStorage (useLocalStorage parseJs "currentDayNumber" (JsNumber 1) corruptedWindow).2
    = localStorage corruptedWindow
  ∧ writes (useLocalStorage parseJs "currentDayNumber" (JsNumber 1) corruptedWindow).2
    = writes corruptedWindow.
Proof.
  apply (useLocalStorage_absent_or_corrupted parseJs).
  right. exists "{oops". split; reflexivity.
Defined.

(** The throwing case on the fragment: a [BigInt] handed to the setter. *)
Lemma setValue_stringify_throws_witness :
  storedValue (setValue stringifyJs parseJs dayHook (Literal (JsBigInt 2)) dayWindow).1
  = JsBigInt 2
  ∧ localStorage (setValue stringifyJs parseJs dayHook (Literal (JsBigInt 2)) dayWindow).2
    = localStorage dayWindow
  ∧ writes (setValue stringifyJs parseJs dayHook (Literal (JsBigInt 2)) dayWindow).2
    = writes dayWindow
  ∧ events (setValue stringifyJs parseJs dayHook (Literal (JsBigInt 2)) dayWindow).2
    = ConsoleError "Error setting localStorage key" :: events dayWindow.
Proof.
  apply (setValue_stringify_throws stringifyJs parseJs dayHook (Literal (JsBigInt 2))).
  reflexivity.
Defined.


(** ** Properties of the day progression *)

Lemma includes_elem_of (arr : list Z) (x : Z) :
  Js.includes arr x = true ↔ x ∈ arr.
Proof.
  unfold Js.includes. rewrite existsb_exists. split.
  - intros (y & Hin & Heq). apply Z.eqb_eq in Heq as ->.
    by apply list_elem_of_In.
  - intros Hin. exists x. split; [by apply list_elem_of_In | apply Z.eqb_refl].
Qed.

Lemma elem_of_oneTo (k : nat) (x : Z) : x ∈ oneTo k ↔ 1 ≤ x ≤ Z.of_nat k.
Proof.
  unfold oneTo. rewrite list_elem_of_fmap. split.
  - intros (n & -> & Hn). apply elem_of_seq in Hn. lia.
  - intros Hx. exists (Z.to_nat x). split; [lia | apply elem_of_seq; lia].
Qed.

Lemma oneTo_S (k : nat) : oneTo (S k) = oneTo k ++ [Z.of_nat k + 1].
Proof.
  unfold oneTo. rewrite seq_S, fmap_app. simpl. do 2 f_equal. lia.
Qed.

Lemma NoDup_oneTo (k : nat) : NoDup (oneTo k).
Proof.
  unfold oneTo. apply NoDup_fmap_2; [|apply NoDup_seq].
  intros x y Hxy. lia.
Qed.

(** What a call does when its guard holds, whatever the medium holds. *)
Lemma completeDay_advances a :
  notYetCompleted a = true →
  currentDayNumber (slots (completeDay a)) = currentDayNumber (slots a) + 1
  ∧ completedDays (slots (completeDay a))
    = completedDays (slots a) ++ [currentDayNumber (slots a)].
Proof.
  intros Hguard. unfold completeDay. rewrite Hguard. done.
Qed.

Lemma contiguous_guard a : contiguous a → notYetCompleted a = true.
Proof.
  intros (k & Hday & Hdone). unfold notYetCompleted.
  apply negb_true_iff, not_true_is_false. rewrite includes_elem_of.
  rewrite Hday, Hdone, elem_of_oneTo. lia.
Qed.

Lemma contiguous_completeDay a : contiguous a → contiguous (completeDay a).
Proof.
  intros Hinv. pose proof (contiguous_guard a Hinv) as Hguard.
  destruct Hinv as (k & Hday & Hdone).
  destruct (completeDay_advances a Hguard) as [Hday' Hdone'].
  exists (S k). rewrite Hday', Hdone', Hday, Hdone, oneTo_S. split; [lia | done].
Qed.

Lemma completeDay_iter_contiguous a (k : nat) :
  currentDayNumber (slots a) = 1 → completedDays (slots a) = [] →
  currentDayNumber (slots (Nat.iter k completeDay a)) = Z.of_nat k + 1
  ∧ completedDays (slots (Nat.iter k completeDay a)) = oneTo k.
Proof.
  intros Hday Hdone. induction k as [|k [IHday IHdone]].
  - simpl. by rewrite Hday, Hdone.
  - assert (contiguous (Nat.iter k completeDay a)) as Hinv by (by exists k).
    destruct (completeDay_advances _ (contiguous_guard _ Hinv)) as [Hday' Hdone'].
    simpl Nat.iter. rewrite Hday', Hdone', IHday, IHdone, oneTo_S.
    split; [lia | done].
Qed.

(** C1. From a state whose counter is 1 and whose ledger is empty, [k]
    calls of [completeDay] in a row all pass the guard (each one is a
    successful call), and afterwards the counter is [k + 1] and the ledger
    is 1, ..., [k]: its members are exactly the days from 1 to the counter
    minus one, each recorded once. *)
Theorem completeDay_k_times a (k : nat) :
  currentDayNumber (slots a) = 1 → completedDays (slots a) = [] →
  (∀ j : nat, (j < k)%nat → notYetCompleted (Nat.iter j completeDay a) = true)
  ∧ currentDayNumber (slots (Nat.iter k completeDay a)) = Z.of_nat k + 1
  ∧ completedDays (slots (Nat.iter k completeDay a)) = oneTo k
  ∧ (∀ x, x ∈ completedDays (slots (Nat.iter k completeDay a))
          ↔ 1 ≤ x ≤ currentDayNumber (slots (Nat.iter k completeDay a)) - 1)
  ∧ NoDup (completedDays (slots (Nat.iter k completeDay a))).
Proof.
  intros Hday Hdone.
  destruct (completeDay_iter_contiguous a k Hday Hdone) as [Hk Hl].
  split; [|split; [exact Hk | split; [exact Hl | split]]].
  - intros j _. apply contiguous_guard. exists j.
    by apply completeDay_iter_contiguous.
  - intros x. rewrite Hk, Hl, elem_of_oneTo. lia.
  - rewrite Hl. apply NoDup_oneTo.
Qed.

(** C1 on the first run, three days completed. *)
Lemma completeDay_k_times_witness :
  (∀ j : nat, (j < 3)%nat → notYetCompleted (Nat.iter j completeDay freshTracker) = true)
  ∧ currentDayNumber (slots (Nat.iter 3 completeDay freshTracker)) = Z.of_nat 3 + 1
  ∧ completedDays (slots (Nat.iter 3 completeDay freshTracker)) = oneTo 3
  ∧ (∀ x, x ∈ completedDays (slots (Nat.iter 3 completeDay freshTracker))
          ↔ 1 ≤ x ≤ currentDayNumber (slots (Nat.iter 3 completeDay freshTracker)) - 1)
  ∧ NoDup (completedDays (slots (Nat.iter 3 completeDay freshTracker))).
Proof.
  apply (completeDay_k_times freshTracker 3); reflexivity.
Defined.

(** C3. When the current day is already in the ledger, [completeDay] does
    nothing: the counter, the ledger and the task set are those of before
    (and so is all the rest of the state). *)
Theorem completeDay_already_recorded a :
  Js.includes (completedDays (slots a)) (currentDayNumber (slots a)) = true →
  currentDayNumber (slots (completeDay a)) = currentDayNumber (slots a)
  ∧ completedDays (slots (completeDay a)) = completedDays (slots a)
  ∧ tasks (slots (completeDay a)) = tasks (slots a)
  ∧ completeDay a = a.
Proof.
  intros Hin. unfold completeDay, notYetCompleted. rewrite Hin. done.
Qed.

Lemma completeDay_already_recorded_witness :
  currentDayNumber (slots (completeDay recordedTracker))
  = currentDayNumber (slots recordedTracker)
  ∧ completedDays (slots (completeDay recordedTracker))
    = completedDays (slots recordedTracker)
  ∧ tasks (slots (completeDay recordedTracker)) = tasks (slots recordedTracker)
  ∧ completeDay recordedTracker = recordedTracker.
Proof.
  apply (completeDay_already_recorded recordedTracker). reflexivity.
Defined.

(** ** Properties of the workout log *)

Lemma setWorkouts_workouts ws a : workouts (slots (setWorkouts ws a)) = ws.
Proof. reflexivity. Qed.

Lemma setWorkouts_stored ws a : stored_workouts (disk (setWorkouts ws a)) = Some ws.
Proof. reflexivity. Qed.

Lemma dayWorkouts_insert dayKey l (ws : gmap string (list Exercise)) :
  dayWorkouts dayKey (<[dayKey := l]> ws) = l.
Proof. unfold dayWorkouts. by rewrite lookup_insert_eq. Qed.

Lemma dayWorkouts_insert_ne dayKey k l (ws : gmap string (list Exercise)) :
  dayKey ≠ k → dayWorkouts k (<[dayKey := l]> ws) = dayWorkouts k ws.
Proof. intros Hne. unfold dayWorkouts. by rewrite lookup_insert_ne. Qed.

(** [addExercise] with a name puts one entry at the end of the selected
    day; the identifier of the entry is the decimal text of the clock
    reading and nothing else. *)
Lemma addExercise_appends now a :
  Js.truthy (form_name (currentExercise a)) = true →
  dayWorkouts (dayKeyOf (selectedDay a)) (workouts (slots (addExercise now a)))
  = dayWorkouts (dayKeyOf (selectedDay a)) (workouts (slots a))
    ++ [ {| id := Js.toString now;
            name := form_name (currentExercise a);
            weight := form_weight (currentExercise a);
            sets := form_sets (currentExercise a);
            reps := form_reps (currentExercise a);
            notes := form_notes (currentExercise a) |} ].
Proof.
  intros Hname. unfold addExercise. rewrite Hname. simpl.
  apply dayWorkouts_insert.
Qed.

(** Two submissions that read the same clock value put the same identifier
    on both entries, whatever the forms hold. *)
Lemma addExercise_twice_same_clock now form a :
  Js.truthy (form_name (currentExercise a)) = true →
  Js.truthy (form_name form) = true →
  loggedIds (dayKeyOf (selectedDay a))
    (addExercise now (setCurrentExercise form (addExercise now a)))
  = loggedIds (dayKeyOf (selectedDay a)) a ++ [Js.toString now; Js.toString now].
Proof.
  intros Hname Hform. unfold loggedIds.
  assert (selectedDay (setCurrentExercise form (addExercise now a)) = selectedDay a)
    as Hday by (unfold addExercise; by rewrite Hname).
  rewrite <- Hday at 1. rewrite addExercise_appends by done.
  rewrite Hday. simpl workouts. rewrite addExercise_appends by done.
  by rewrite !fmap_app, <- app_assoc.
Qed.

(** C4 at the failing input: the form submitted twice with the same clock
    reading. Both entries are appended, and both carry the identifier
    "1700000000000": nothing random is part of it. *)
Theorem addExercise_same_instant_same_id :
  loggedIds "day-1" (addExercise 1700000000000 (setCurrentExercise squatForm freshTracker))
  = ["1700000000000"]
  ∧ loggedIds "day-1" addedTwice = ["1700000000000"; "1700000000000"]
  ∧ ¬ NoDup (loggedIds "day-1" addedTwice).
Proof.
  split; [vm_compute; reflexivity|].
  assert (loggedIds "day-1" addedTwice = ["1700000000000"; "1700000000000"]) as Hids
    by (vm_compute; reflexivity).
  split; [exact Hids|]. rewrite Hids. intros Hnd.
  apply NoDup_cons in Hnd as [Hnotin _]. apply Hnotin. by left.
Qed.

Lemma deleteExercise_dayWorkouts dayKey exerciseId a :
  dayWorkouts dayKey (workouts (slots (deleteExercise dayKey exerciseId a)))
  = filter (λ ex, id ex ≠ exerciseId) (dayWorkouts dayKey (workouts (slots a))).
Proof. unfold deleteExercise. rewrite setWorkouts_workouts. apply dayWorkouts_insert. Qed.

Lemma length_filter_id_ne exerciseId (l : list Exercise) :
  (length (filter (λ ex, id ex ≠ exerciseId) l)
   + length (filter (λ ex, id ex = exerciseId) l) = length l)%nat.
Proof.
  induction l as [|ex l IH]; [reflexivity|].
  rewrite !filter_cons. destruct (decide (id ex = exerciseId)) as [Heq|Hne].
  - rewrite decide_False by (intros Hne; by apply Hne). simpl. lia.
  - rewrite decide_True by done. simpl. lia.
Qed.

(** [deleteExercise] removes every entry that carries the identifier. *)
Lemma deleteExercise_removes_all dayKey exerciseId a :
  (entryCount dayKey (deleteExercise dayKey exerciseId a)
   + length (filter (λ ex, id ex = exerciseId) (dayWorkouts dayKey (workouts (slots a))))
   = entryCount dayKey a)%nat.
Proof.
  unfold entryCount. rewrite deleteExercise_dayWorkouts. apply length_filter_id_ne.
Qed.

Lemma filter_id_eq_absent exerciseId (l : list Exercise) :
  exerciseId ∉ id <$> l → filter (λ ex, id ex = exerciseId) l = [].
Proof.
  induction l as [|ex l IH]; [reflexivity|]. rewrite fmap_cons, not_elem_of_cons.
  intros [Hne Hnotin]. rewrite filter_cons, decide_False by done. by apply IH.
Qed.

Lemma filter_id_eq_once exerciseId (l : list Exercise) :
  NoDup (id <$> l) → exerciseId ∈ id <$> l →
  length (filter (λ ex, id ex = exerciseId) l) = 1%nat.
Proof.
  induction l as [|ex l IH]; [intros _ Hin; by apply elem_of_nil in Hin|].
  rewrite fmap_cons, NoDup_cons, elem_of_cons. intros [Hnotin Hnd] Hin.
  rewrite filter_cons. destruct (decide (id ex = exerciseId)) as [Heq|Hne].
  - simpl. rewrite filter_id_eq_absent; [reflexivity | by rewrite <- Heq].
  - destruct Hin as [Heq|Hin]; [by destruct Hne | by apply IH].
Qed.

(** The two usual cases of [deleteExercise]. With an identifier that no
    entry of the day carries, the entry count of the day stays as it was.
    With an identifier that is present, and the identifiers of the day's
    entries pairwise distinct, the entry count goes down by exactly 1. *)
Theorem deleteExercise_entryCount dayKey exerciseId a :
  (exerciseId ∉ loggedIds dayKey a →
   entryCount dayKey (deleteExercise dayKey exerciseId a) = entryCount dayKey a)
  ∧ (exerciseId ∈ loggedIds dayKey a → NoDup (loggedIds dayKey a) →
     entryCount dayKey a = S (entryCount dayKey (deleteExercise dayKey exerciseId a))).
Proof.
  pose proof (deleteExercise_removes_all dayKey exerciseId a) as Hcount.
  unfold loggedIds. split.
  - intros Habsent. rewrite filter_id_eq_absent in Hcount by done.
    simpl in Hcount. lia.
  - intros Hin Hnd. rewrite filter_id_eq_once in Hcount by done. lia.
Qed.

Lemma deleteExercise_entryCount_witness :
  entryCount "day-1" (deleteExercise "day-1" "42" addedOnce) = entryCount "day-1" addedOnce
  ∧ entryCount "day-1" addedOnce
    = S (entryCount "day-1" (deleteExercise "day-1" "1700000000000" addedOnce)).
Proof.
  split.
  - apply (proj1 (deleteExercise_entryCount "day-1" "42" addedOnce)).
    vm_compute. intros Hin. apply list_elem_of_In in Hin.
    destruct Hin as [Heq|[]]. discriminate Heq.
  - apply (proj2 (deleteExercise_entryCount "day-1" "1700000000000" addedOnce)).
    + vm_compute. by left.
    + vm_compute. apply NoDup_singleton.
Defined.

(** C6 as stated fails: on the day that holds the two entries added in the
    same millisecond, the identifier is present and the entry count goes
    from 2 to 0. *)
Lemma deleteExercise_removes_two :
  "1700000000000" ∈ loggedIds "day-1" addedTwice
  ∧ entryCount "day-1" addedTwice = 2%nat
  ∧ entryCount "day-1" (deleteExercise "day-1" "1700000000000" addedTwice) = 0%nat.
Proof.
  split; [vm_compute; by left|]. split; vm_compute; reflexivity.
Qed.

Lemma occurrences_loggedIds exerciseId (l : list Exercise) :
  length (filter (λ ex, id ex = exerciseId) l) = occurrences exerciseId (id <$> l).
Proof.
  unfold occurrences. induction l as [|ex l IH]; [reflexivity|].
  rewrite fmap_cons, !filter_cons.
  destruct (decide (id ex = exerciseId)); simpl; by rewrite IH.
Qed.

Lemma occurrences_zero exerciseId (ids : list string) :
  occurrences exerciseId ids = 0%nat ↔ exerciseId ∉ ids.
Proof.
  unfold occurrences. induction ids as [|i ids IH]; [split; [intros _ Hin; by apply elem_of_nil in Hin | done]|].
  rewrite filter_cons, not_elem_of_cons.
  destruct (decide (i = exerciseId)) as [->|Hne]; simpl.
  - split; [done | by intros [Hne _]].
  - rewrite IH. split; [by auto | by intros [_ Hnotin]].
Qed.

(** C6, as the code has it. [deleteExercise] lowers the entry count of the
    day by the number of entries that carry the identifier: by nothing
    when, and only when, no entry carries it, and by exactly 1 when, and
    only when, exactly one entry carries it. *)
Theorem deleteExercise_entryCount_exact dayKey exerciseId a :
  entryCount dayKey a
  = (entryCount dayKey (deleteExercise dayKey exerciseId a)
     + occurrences exerciseId (loggedIds dayKey a))%nat
  ∧ (entryCount dayKey (deleteExercise dayKey exerciseId a) = entryCount dayKey a
     ↔ exerciseId ∉ loggedIds dayKey a)
  ∧ (entryCount dayKey a = S (entryCount dayKey (deleteExercise dayKey exerciseId a))
     ↔ occurrences exerciseId (loggedIds dayKey a) = 1%nat).
Proof.
  pose proof (deleteExercise_removes_all dayKey exerciseId a) as Hcount.
  rewrite occurrences_loggedIds in Hcount. fold (loggedIds dayKey a) in Hcount.
  split; [lia|]. split.
  - rewrite <- occurrences_zero. lia.
  - lia.
Qed.

(** The law on three days: an identifier carried by one entry among
    others that repeat, by two entries, and by none. *)
Lemma deleteExercise_entryCount_examples :
  occurrences "a" ["a"; "b"; "b"] = 1%nat
  ∧ occurrences "1700000000000" (loggedIds "day-1" addedTwice) = 2%nat
  ∧ occurrences "42" (loggedIds "day-1" addedOnce) = 0%nat.
Proof. repeat split. Qed.

(** C10. On a map without the day key, [deleteExercise] hands the store a
    map in which the day key is bound to the empty sequence; every other
    key is bound as before; that map is what the medium holds afterwards.
    It is not the map of before, although no entry was removed. *)
Theorem deleteExercise_unlogged_day dayKey exerciseId a :
  workouts (slots a) !! dayKey = None →
  workouts (slots (deleteExercise dayKey exerciseId a)) !! dayKey = Some []
  ∧ (∀ k, k ≠ dayKey →
       workouts (slots (deleteExercise dayKey exerciseId a)) !! k
       = workouts (slots a) !! k)
  ∧ stored_workouts (disk (deleteExercise dayKey exerciseId a))
    = Some (<[dayKey := []]> (workouts (slots a)))
  ∧ workouts (slots (deleteExercise dayKey exerciseId a)) ≠ workouts (slots a)
  ∧ entryCount dayKey (deleteExercise dayKey exerciseId a) = entryCount dayKey a.
Proof.
  intros Habsent.
  assert (workouts (slots (deleteExercise dayKey exerciseId a))
          = <[dayKey := []]> (workouts (slots a))) as Hmap.
  { unfold deleteExercise, dayWorkouts. rewrite setWorkouts_workouts, Habsent.
    reflexivity. }
  split; [by rewrite Hmap, lookup_insert_eq|].
  split; [intros k Hne; by rewrite Hmap, lookup_insert_ne|].
  split; [unfold deleteExercise, dayWorkouts; by rewrite setWorkouts_stored, Habsent|].
  split.
  - intros Heq. rewrite Hmap in Heq.
    assert (<[dayKey := []]> (workouts (slots a)) !! dayKey = None) as Hnone
      by (by rewrite Heq).
    by rewrite lookup_insert_eq in Hnone.
  - unfold entryCount, dayWorkouts. by rewrite Hmap, lookup_insert_eq, Habsent.
Qed.

Lemma deleteExercise_unlogged_day_witness :
  workouts (slots (deleteExercise "day-1" "42" freshTracker)) !! "day-1" = Some []
  ∧ (∀ k, k ≠ "day-1" →
       workouts (slots (deleteExercise "day-1" "42" freshTracker)) !! k
       = workouts (slots freshTracker) !! k)
  ∧ stored_workouts (disk (deleteExercise "day-1" "42" freshTracker))
    = Some (<["day-1" := []]> (workouts (slots freshTracker)))
  ∧ workouts (slots (deleteExercise "day-1" "42" freshTracker))
    ≠ workouts (slots freshTracker)
  ∧ entryCount "day-1" (deleteExercise "day-1" "42" freshTracker)
    = entryCount "day-1" freshTracker.
Proof.
  apply (deleteExercise_unlogged_day "day-1" "42" freshTracker). reflexivity.
Defined.

(** *** Entries taken from the reference catalogue *)

Lemma addAllFromTemplate_appends now random exercises a :
  dayWorkouts (dayKeyOf (selectedDay a))
    (workouts (slots (addAllFromTemplate now random exercises a)))
  = dayWorkouts (dayKeyOf (selectedDay a)) (workouts (slots a))
    ++ imap (fromTemplate now random) exercises.
Proof.
  destruct exercises as [|ex exercises].
  - simpl. by rewrite app_nil_r.
  - unfold addAllFromTemplate. rewrite setWorkouts_workouts. apply dayWorkouts_insert.
Qed.

(** One entry per template, whatever the texts are. *)
Lemma addAllFromTemplate_entryCount now random exercises a :
  entryCount (dayKeyOf (selectedDay a)) (addAllFromTemplate now random exercises a)
  = (entryCount (dayKeyOf (selectedDay a)) a + length exercises)%nat.
Proof.
  unfold entryCount. by rewrite addAllFromTemplate_appends, length_app, length_imap.
Qed.

(** The example of the specification: "3 x 45 sec". *)
Lemma fromTemplate_plank now random i :
  sets (fromTemplate now random i plank) = "3"
  ∧ reps (fromTemplate now random i plank) = "45 sec".
Proof. split; reflexivity. Qed.

Lemma split_without_separator sep (text : string) :
  sep ∉ String.list_ascii_of_string text → Js.split sep text = [text].
Proof.
  induction text as [|c text IH]; [reflexivity|]. simpl.
  rewrite not_elem_of_cons. intros [Hne Hnotin].
  rewrite IH by done. destruct (Ascii.eqb_spec c sep) as [Heq|_]; [|reflexivity].
  by destruct Hne.
Qed.

(** A text without the letter x is never cut: the whole text, trimmed, is
    the [sets] field, and the [reps] field is empty. *)
Lemma template_text_without_x (text : string) :
  "x"%char ∉ String.list_ascii_of_string text →
  templateSets text = Js.trim text ∧ templateReps text = EmptyString.
Proof.
  intros Hnox. unfold templateSets, templateReps.
  by rewrite split_without_separator.
Qed.

(** C7 at the failing input: a batch holding the Saturday entry "15 min",
    the Monday entry "2 x Max" and the example "3 x 45 sec". Three entries
    are added. The text "15 min", which has no "sets x reps" form, yields
    the [sets] field "15 min", not the empty string; "2 x Max", cut at
    every x, yields the [reps] field "Ma". *)
Theorem addAllFromTemplate_catalogue_texts :
  (λ ex, (name ex, sets ex, reps ex)) <$>
    dayWorkouts "day-1"
      (workouts (slots (addAllFromTemplate frozenClock fixedSuffix
                          [yogaFlow; pushUps; plank] freshTracker)))
  = [ ("Deep Stretch/Yoga Flow", "15 min", EmptyString);
      ("Push-Ups (Finisher)", "2", "Ma");
      ("Plank", "3", "45 sec") ].
Proof. vm_compute. reflexivity. Qed.

(** ** The reset control *)

(** C5 at the failing input: on day 2, with day 1 in the ledger, a click on
    "Reset All Progress" leaves the counter at 2 and the ledger at [1]; the
    slots are not back at their defaults. *)
Theorem clickResetAllProgress_resets_nothing :
  currentDayNumber (slots (clickResetAllProgress dayTwoTracker)) = 2
  ∧ completedDays (slots (clickResetAllProgress dayTwoTracker)) = [1]
  ∧ slots (clickResetAllProgress dayTwoTracker) ≠ defaultSlots
  ∧ clickResetAllProgress dayTwoTracker = dayTwoTracker.
Proof.
  split; [reflexivity|]. split; [reflexivity|]. split; [|reflexivity].
  intros Heq. apply (f_equal currentDayNumber) in Heq. discriminate Heq.
Qed.

(** ** Properties of the weekday mapping *)

Lemma adjusted_index_modulo (x : Z) :
  (if Js.remainder x 7 <? 0 then 7 + Js.remainder x 7 else Js.remainder x 7)
  = x mod 7.
Proof.
  unfold Js.remainder. destruct (Z.ltb_spec (Z.rem x 7) 0);
    Z.to_euclidean_division_equations; lia.
Qed.

Lemma selectedWeekdayEffect_modulo currentDay selectedDay currentDayNumber :
  selectedWeekdayEffect currentDay selectedDay currentDayNumber
  = Js.index weekdays ((currentDay + (selectedDay - currentDayNumber)) mod 7).
Proof. unfold selectedWeekdayEffect. simpl. by rewrite adjusted_index_modulo. Qed.

(** The effect is periodic with period 7. *)
Lemma selectedWeekdayEffect_periodic currentDay n currentDayNumber :
  selectedWeekdayEffect currentDay (n + 7) currentDayNumber
  = selectedWeekdayEffect currentDay n currentDayNumber.
Proof.
  rewrite !selectedWeekdayEffect_modulo. f_equal.
  replace (currentDay + (n + 7 - currentDayNumber))
    with (currentDay + (n - currentDayNumber) + 1 * 7) by lia.
  apply Z.mod_add. lia.
Qed.

(** On the current day the effect answers [weekdays[currentDay]], the
    weekday of today. *)
Lemma selectedWeekdayEffect_today currentDay currentDayNumber :
  0 ≤ currentDay < 7 →
  selectedWeekdayEffect currentDay currentDayNumber currentDayNumber
  = Js.index weekdays currentDay.
Proof.
  intros Hday. rewrite selectedWeekdayEffect_modulo. f_equal.
  rewrite Z.sub_diag, Z.add_0_r. apply Z.mod_small. lia.
Qed.

(** The effect always answers one of the seven names. *)
Lemma selectedWeekdayEffect_valid currentDay n currentDayNumber :
  ∃ weekday, selectedWeekdayEffect currentDay n currentDayNumber = Some weekday
             ∧ weekday ∈ weekdays.
Proof.
  rewrite selectedWeekdayEffect_modulo.
  pose proof (Z.mod_pos_bound (currentDay + (n - currentDayNumber)) 7 ltac:(lia))
    as Hbound.
  unfold Js.index. destruct (Z.ltb_spec ((currentDay + (n - currentDayNumber)) mod 7) 0);
    [lia|].
  destruct (lookup_lt_is_Some_2 weekdays
              (Z.to_nat ((currentDay + (n - currentDayNumber)) mod 7)))
    as [weekday Hweekday]; [simpl; lia|].
  exists weekday. split; [done | by eapply list_elem_of_lookup_2].
Qed.

(** The label of an option agrees with the effect as long as the sum
    under the remainder is not negative. *)
Lemma daySelectOptionWeekday_nonneg currentDay i currentDayNumber :
  0 ≤ currentDay + (i + 1) - currentDayNumber →
  daySelectOptionWeekday currentDay i currentDayNumber
  = selectedWeekdayEffect currentDay (i + 1) currentDayNumber.
Proof.
  intros Hnonneg. rewrite selectedWeekdayEffect_modulo.
  unfold daySelectOptionWeekday, Js.remainder. f_equal.
  rewrite Z.rem_mod_nonneg by lia. f_equal. lia.
Qed.

(** C8 at the failing input: on a Sunday ([currentDay] 0) of challenge day
    3, the label of "Day 1" (option 0) indexes [weekdays] at -2 and is
    [undefined], where the effect answers Friday for day 1 and the label
    of "Day 8" (option 7) is Friday too: the label is neither normalized
    nor periodic. *)
Theorem daySelectOptionWeekday_undefined :
  Js.remainder (0 + (0 + 1) - 3) 7 = -2
  ∧ daySelectOptionWeekday 0 0 3 = None
  ∧ selectedWeekdayEffect 0 1 3 = Some "Friday"
  ∧ daySelectOptionWeekday 0 7 3 = Some "Friday".
Proof. repeat split. Qed.

(** ** Further properties of the persistent store *)

(** The listener of the update event reads only. *)
Lemma onLocalStorageUpdate_window {V} (JSON_parse : string → option V)
    (h : Hook V) w :
  localStorage (onLocalStorageUpdate JSON_parse h w).2 = localStorage w
  ∧ writes (onLocalStorageUpdate JSON_parse h w).2 = writes w.
Proof.
  unfold onLocalStorageUpdate.
  destruct (localStorage w !! key h) as [item|]; [|done].
  destruct (Js.truthy item); [|done].
  destruct (JSON_parse item); done.
Qed.

Section StoreComposition.

Context {V : Type}.
Variable JSON_stringify : V → option string.
Variable JSON_parse : string → option V.

(** A successful [setValue] leaves the window with the text written and
    the event dispatched, and the binding with the value read back. *)
Lemma setValue_success (h : Hook V) value w text :
  JSON_stringify (valueToStore h value) = Some text →
  Js.truthy text = true →
  JSON_parse text = Some (valueToStore h value) →
  setValue JSON_stringify JSON_parse h value w
  = (setStoredValue (valueToStore h value) h,
     dispatchEvent "local-storage-update" (setItem (key h) text w)).
Proof.
  intros Hs Ht Hp. unfold setValue, onLocalStorageUpdate. rewrite Hs. simpl.
  rewrite lookup_insert_eq, Ht, Hp. reflexivity.
Qed.

(** X1. Round trip. After [setValue] has written a value that the format reads
    back, a new binding of the same key starts with that value, whatever
    its default is; the medium holds the text, and exactly one write was
    made. *)
Theorem setValue_then_useLocalStorage (h : Hook V) value w text (other : V) :
  JSON_stringify (valueToStore h value) = Some text →
  Js.truthy text = true →
  JSON_parse text = Some (valueToStore h value) →
  storedValue
    (useLocalStorage JSON_parse (key h) other
       (setValue JSON_stringify JSON_parse h value w).2).1
  = valueToStore h value
  ∧ localStorage (setValue JSON_stringify JSON_parse h value w).2 !! key h = Some text
  ∧ writes (setValue JSON_stringify JSON_parse h value w).2
    = SetItem (key h) text :: writes w.
Proof.
  intros Hs Ht Hp. rewrite (setValue_success h value w text Hs Ht Hp).
  unfold useLocalStorage. simpl. rewrite lookup_insert_eq, Ht, Hp. done.
Qed.

(** X2. The updater of [setValue] is applied to the value that the binding
    held when the setter was created: two calls of the same setter with
    the same updater both store [f v], not [f (f v)]. *)
Theorem setValue_updater_same_binding (h : Hook V) (f : V → V) w text :
  JSON_stringify (f (storedValue h)) = Some text →
  Js.truthy text = true →
  JSON_parse text = Some (f (storedValue h)) →
  storedValue
    (setValue JSON_stringify JSON_parse h (Updater f)
       (setValue JSON_stringify JSON_parse h (Updater f) w).2).1
  = f (storedValue h)
  ∧ writes
      (setValue JSON_stringify JSON_parse h (Updater f)
         (setValue JSON_stringify JSON_parse h (Updater f) w).2).2
    = SetItem (key h) text :: SetItem (key h) text :: writes w.
Proof.
  intros Hs Ht Hp.
  rewrite (setValue_success h (Updater f) w text Hs Ht Hp). simpl.
  rewrite (setValue_success h (Updater f) _ text Hs Ht Hp). done.
Qed.

(** The handler of the cross-document event only ever touches the state
    of its binding: the medium is not written, the key of the binding
    stays, and the state either stays or becomes what the new text of the
    binding's own key parses to. *)
Theorem handleStorageChange_reads_only eKey newValue (h : Hook V) w :
  localStorage (handleStorageChange JSON_parse eKey newValue h w).2 = localStorage w
  ∧ writes (handleStorageChange JSON_parse eKey newValue h w).2 = writes w
  ∧ key (handleStorageChange JSON_parse eKey newValue h w).1 = key h
  ∧ (storedValue (handleStorageChange JSON_parse eKey newValue h w).1 = storedValue h
     ∨ eKey = key h
       ∧ JSON_parse (default "null" newValue)
         = Some (storedValue (handleStorageChange JSON_parse eKey newValue h w).1)).
Proof.
  unfold handleStorageChange.
  destruct (String.eqb_spec eKey (key h)) as [Heq|Hne]; [|by auto].
  destruct (JSON_parse (default "null" newValue)) as [v|] eqn:Hparse; simpl.
  - repeat split; try done. by right.
  - repeat split; try done. by left.
Qed.

(** X3. What becomes of a value whose serialization threw. The mirror
    holds it after the call; at the next update event the listener
    replaces it by what the medium holds under the key, when that is a
    readable item (the unsaved value is then lost), and leaves it in the
    mirror when the key is absent, empty or unparsable. *)
Theorem failed_write_lost_on_update (h : Hook V) value w :
  JSON_stringify (valueToStore h value) = None →
  storedValue (setValue JSON_stringify JSON_parse h value w).1 = valueToStore h value
  ∧ storedValue
      (onLocalStorageUpdate JSON_parse
         (setValue JSON_stringify JSON_parse h value w).1
         (setValue JSON_stringify JSON_parse h value w).2).1
    = match persisted JSON_parse (key h) w with
      | Some old => old
      | None => valueToStore h value
      end.
Proof.
  intros Hthrow. unfold setValue. rewrite Hthrow. simpl. split; [done|].
  rewrite onLocalStorageUpdate_value. simpl.
  unfold persisted. simpl. by destruct (localStorage w !! key h).
Qed.


(** [setValue] never touches another key of the medium, whether the write
    succeeds or fails. *)
Theorem setValue_other_keys (h : Hook V) value w k :
  k ≠ key h →
  localStorage (setValue JSON_stringify JSON_parse h value w).2 !! k
  = localStorage w !! k.
Proof.
  intros Hne. unfold setValue.
  destruct (JSON_stringify (valueToStore h value)) as [text|]; [|done].
  rewrite (proj1 (onLocalStorageUpdate_window _ _ _)). simpl.
  by rewrite lookup_insert_ne.
Qed.

End StoreComposition.

Lemma setValue_then_useLocalStorage_witness :
  storedValue
    (useLocalStorage parseJs (key dayHook) (JsNumber 1)
       (setValue stringifyJs parseJs dayHook (Literal (JsNumber 5)) dayWindow).2).1
  = valueToStore dayHook (Literal (JsNumber 5))
  ∧ localStorage (setValue stringifyJs parseJs dayHook (Literal (JsNumber 5)) dayWindow).2
      !! key dayHook = Some "5"
  ∧ writes (setValue stringifyJs parseJs dayHook (Literal (JsNumber 5)) dayWindow).2
    = SetItem (key dayHook) "5" :: writes dayWindow.
Proof.
  apply (setValue_then_useLocalStorage stringifyJs parseJs dayHook
           (Literal (JsNumber 5)) dayWindow "5" (JsNumber 1)); reflexivity.
Defined.

Lemma setValue_updater_same_binding_witness :
  storedValue
    (setValue stringifyJs parseJs dayHook (Updater nextNumber)
       (setValue stringifyJs parseJs dayHook (Updater nextNumber) dayWindow).2).1
  = nextNumber (storedValue dayHook)
  ∧ writes
      (setValue stringifyJs parseJs dayHook (Updater nextNumber)
         (setValue stringifyJs parseJs dayHook (Updater nextNumber) dayWindow).2).2
    = SetItem (key dayHook) "2" :: SetItem (key dayHook) "2" :: writes dayWindow.
Proof.
  apply (setValue_updater_same_binding stringifyJs parseJs dayHook nextNumber
           dayWindow "2"); reflexivity.
Defined.

Lemma failed_write_lost_on_update_witness :
  storedValue (setValue stringifyJs parseJs dayHook (Literal (JsBigInt 2)) dayWindow).1
  = valueToStore dayHook (Literal (JsBigInt 2))
  ∧ storedValue
      (onLocalStorageUpdate parseJs
         (setValue stringifyJs parseJs dayHook (Literal (JsBigInt 2)) dayWindow).1
         (setValue stringifyJs parseJs dayHook (Literal (JsBigInt 2)) dayWindow).2).1
    = match persisted parseJs (key dayHook) dayWindow with
      | Some old => old
      | None => valueToStore dayHook (Literal (JsBigInt 2))
      end.
Proof.
  apply (failed_write_lost_on_update stringifyJs parseJs dayHook
           (Literal (JsBigInt 2)) dayWindow); reflexivity.
Defined.

(** The two cases of X3 on the fragment: over a medium that reads 1 the
    unsaved [BigInt] gives way to 1; over a medium with unparsable text it
    stays in the mirror. *)
Lemma failed_write_examples :
  storedValue
    (onLocalStorageUpdate parseJs
       (setValue stringifyJs parseJs dayHook (Literal (JsBigInt 2)) dayWindow).1
       (setValue stringifyJs parseJs dayHook (Literal (JsBigInt 2)) dayWindow).2).1
  = JsNumber 1
  ∧ storedValue
      (onLocalStorageUpdate parseJs
         (setValue stringifyJs parseJs dayHook (Literal (JsBigInt 2)) corruptedWindow).1
         (setValue stringifyJs parseJs dayHook (Literal (JsBigInt 2)) corruptedWindow).2).1
    = JsBigInt 2.
Proof. split; vm_compute; reflexivity. Qed.

(** [undefined] handed to the setter: [JSON.stringify] does not throw, the
    text "undefined" is written and the event dispatched; the listener
    cannot parse that text and leaves [undefined] in the mirror. *)
Lemma setValue_undefined_is_written :
  localStorage (setValue stringifyJs parseJs dayHook (Literal JsUndefined) dayWindow).2
    !! "currentDayNumber" = Some "undefined"
  ∧ writes (setValue stringifyJs parseJs dayHook (Literal JsUndefined) dayWindow).2
    = [SetItem "currentDayNumber" "undefined"]
  ∧ storedValue (setValue stringifyJs parseJs dayHook (Literal JsUndefined) dayWindow).1
    = JsUndefined
  ∧ persisted parseJs "currentDayNumber"
      (setValue stringifyJs parseJs dayHook (Literal JsUndefined) dayWindow).2
    = None.
Proof. repeat split; vm_compute; reflexivity. Qed.

Lemma setValue_other_keys_witness :
  localStorage (setValue stringifyJs parseJs dayHook (Literal (JsNumber 5)) dayWindow).2
    !! "workouts"
  = localStorage dayWindow !! "workouts".
Proof.
  apply (setValue_other_keys stringifyJs parseJs dayHook (Literal (JsNumber 5))
           dayWindow "workouts").
  discriminate.
Defined.

(** ** Properties of the start-up initialization *)

Lemma setItemIfMissing_present k text w item :
  localStorage w !! k = Some item → Js.truthy item = true →
  setItemIfMissing k text w = w.
Proof. intros Hitem Htruthy. unfold setItemIfMissing. by rewrite Hitem, Htruthy. Qed.

Lemma setItemIfMissing_keeps k text w k' item :
  localStorage w !! k' = Some item → Js.truthy item = true →
  localStorage (setItemIfMissing k text w) !! k' = Some item.
Proof.
  intros Hitem Htruthy. unfold setItemIfMissing.
  destruct (decide (k = k')) as [->|Hne].
  - by rewrite Hitem, Htruthy.
  - destruct (localStorage w !! k) as [i|]; [destruct (Js.truthy i)|];
      simpl; by rewrite ?lookup_insert_ne.
Qed.

Lemma setItemIfMissing_fills k text w :
  Js.truthy text = true →
  ∃ item, localStorage (setItemIfMissing k text w) !! k = Some item
          ∧ Js.truthy item = true.
Proof.
  intros Htext. unfold setItemIfMissing.
  destruct (localStorage w !! k) as [i|] eqn:Hi.
  - destruct (Js.truthy i) eqn:Htruthy.
    + by exists i.
    + exists text. simpl. by rewrite lookup_insert_eq.
  - exists text. simpl. by rewrite lookup_insert_eq.
Qed.

Lemma setItemIfMissing_other k text w k' :
  k' ≠ k → localStorage (setItemIfMissing k text w) !! k' = localStorage w !! k'.
Proof.
  intros Hne. unfold setItemIfMissing.
  destruct (localStorage w !! k) as [i|]; [destruct (Js.truthy i)|];
    simpl; by rewrite ?lookup_insert_ne.
Qed.

Lemma initializeLocalStorage_fills_key w k :
  k ∈ ["currentDayNumber"; "completedDays"; "todayTasks"; "workouts"] →
  ∃ item, localStorage (initializeLocalStorage w) !! k = Some item
          ∧ Js.truthy item = true.
Proof.
  intros Hk. unfold initializeLocalStorage.
  repeat (apply elem_of_cons in Hk as [->|Hk]); [ | | | | by apply elem_of_nil in Hk].
  - destruct (setItemIfMissing_fills "currentDayNumber" "1" w) as (i & Hi & Ht); [done|].
    exists i. split; [|done]. by do 3 (apply setItemIfMissing_keeps; [|exact Ht]).
  - destruct (setItemIfMissing_fills "completedDays" "[]"
                (setItemIfMissing "currentDayNumber" "1" w)) as (i & Hi & Ht); [done|].
    exists i. split; [|done]. by do 2 (apply setItemIfMissing_keeps; [|exact Ht]).
  - destruct (setItemIfMissing_fills "todayTasks" (stringifyTasks defaultTasks)
                (setItemIfMissing "completedDays" "[]"
                   (setItemIfMissing "currentDayNumber" "1" w)))
      as (i & Hi & Ht); [done|].
    exists i. split; [|done]. by apply setItemIfMissing_keeps.
  - apply setItemIfMissing_fills. done.
Qed.

(** X5. Start-up never replaces a non-empty item, under any key. *)
Theorem initializeLocalStorage_keeps w k item :
  localStorage w !! k = Some item → Js.truthy item = true →
  localStorage (initializeLocalStorage w) !! k = Some item.
Proof.
  intros Hitem Htruthy. unfold initializeLocalStorage.
  by do 4 (apply setItemIfMissing_keeps; [|exact Htruthy]).
Qed.

Lemma initializeLocalStorage_keeps_witness :
  localStorage (initializeLocalStorage corruptedWindow) !! "currentDayNumber"
  = Some "{oops".
Proof.
  apply (initializeLocalStorage_keeps corruptedWindow "currentDayNumber" "{oops");
    reflexivity.
Defined.

(** Start-up touches no key but its four. *)
Theorem initializeLocalStorage_other_keys w k :
  k ∉ ["currentDayNumber"; "completedDays"; "todayTasks"; "workouts"] →
  localStorage (initializeLocalStorage w) !! k = localStorage w !! k.
Proof.
  intros Hk. unfold initializeLocalStorage.
  rewrite !setItemIfMissing_other; [done|set_solver..].
Qed.

Lemma initializeLocalStorage_other_keys_witness :
  localStorage (initializeLocalStorage dayWindow) !! "theme"
  = localStorage dayWindow !! "theme".
Proof.
  apply (initializeLocalStorage_other_keys dayWindow "theme").
  intros Hin. repeat (apply elem_of_cons in Hin as [Heq|Hin]; [discriminate Heq|]).
  by apply elem_of_nil in Hin.
Defined.

(** ** Properties of the daily tasks and of the two percentages *)

Lemma setTasks_tasks v a : tasks (slots (setTasks v a)) = v.
Proof. reflexivity. Qed.

Lemma withTask_involutive taskName (t : Tasks) :
  withTask taskName
    (negb (taskValue taskName (withTask taskName (negb (taskValue taskName t)) t)))
    (withTask taskName (negb (taskValue taskName t)) t)
  = t.
Proof. destruct taskName, t; simpl; by rewrite negb_involutive. Qed.

(** X6. [toggleTask] is its own inverse on the task set: two clicks on the
    same task give back the tasks of before, and the medium holds them. *)
Theorem toggleTask_twice taskName a :
  tasks (slots (toggleTask taskName (toggleTask taskName a))) = tasks (slots a)
  ∧ stored_todayTasks (disk (toggleTask taskName (toggleTask taskName a)))
    = Some (tasks (slots a)).
Proof.
  unfold toggleTask at 1. rewrite setTasks_tasks.
  unfold toggleTask. rewrite setTasks_tasks, withTask_involutive. done.
Qed.

(** X7. A click on a task changes the count of checked tasks by exactly one,
    up when the task was unchecked and down when it was checked, and
    leaves the eight other tasks as they were. *)
Theorem toggleTask_count taskName a :
  tasksCompletedCount (tasks (slots (toggleTask taskName a)))
  = tasksCompletedCount (tasks (slots a))
    + (if taskValue taskName (tasks (slots a)) then -1 else 1)
  ∧ taskValue taskName (tasks (slots (toggleTask taskName a)))
    = negb (taskValue taskName (tasks (slots a)))
  ∧ ∀ other, other = taskName
             ∨ taskValue other (tasks (slots (toggleTask taskName a)))
               = taskValue other (tasks (slots a)).
Proof.
  unfold toggleTask. rewrite setTasks_tasks.
  destruct (tasks (slots a)) as [b1 b2 b3 b4 b5 b6 b7 b8 b9].
  split; [|split].
  - destruct taskName, b1, b2, b3, b4, b5, b6, b7, b8, b9; reflexivity.
  - by destruct taskName.
  - intros other. destruct taskName, other; auto.
Qed.

(** X8. The percentage of today's tasks is the integer part of [100 * n / 9]
    for [n] checked tasks (0, 11, 22, ..., 88, 100), and it shows 100
    exactly when all nine tasks are checked. *)
Theorem tasksCompletedPercentage_exact (t : Tasks) :
  tasksCompletedPercentage t = Some (100 * tasksCompletedCount t / 9)
  ∧ (tasksCompletedPercentage t = Some 100 ↔ t = allTasksDone).
Proof.
  assert (tasksCompletedPercentage t = Some (100 * tasksCompletedCount t / 9))
    as Hexact.
  { destruct t as [[] [] [] [] [] [] [] [] []]; vm_compute; reflexivity. }
  split; [done|]. rewrite Hexact. split.
  - intros [= Hcount].
    destruct t as [[] [] [] [] [] [] [] [] []];
      first [reflexivity | vm_compute in Hcount; discriminate Hcount].
  - intros ->. reflexivity.
Qed.

Lemma percentage_of_75_checked :
  forallb (λ n : nat,
             match JsMath.percentage (Z.of_nat n) 75 with
             | Some p => p =? 100 * Z.of_nat n / 75
             | None => false
             end) (seq 0 87) = true.
Proof. vm_compute. reflexivity. Qed.

(** Past 86 entries the fraction rounds the other way: 87 entries show
    115 where [100 * 87 / 75] is 116. *)
Lemma progressPercentage_87 :
  progressPercentage (Z.of_nat <$> seq 1 87) = Some 115 ∧ 100 * 87 / 75 = 116.
Proof. split; vm_compute; reflexivity. Qed.

(** X9. For a ledger of up to 86 entries the overall percentage is the integer
    part of [100 * n / 75]. It is 100 exactly at 75 entries and, not being
    capped, greater than 100 beyond. *)
Theorem progressPercentage_exact (ledger : list Z) :
  (length ledger ≤ 86)%nat →
  progressPercentage ledger = Some (100 * Z.of_nat (length ledger) / 75)
  ∧ (progressPercentage ledger = Some 100 ↔ length ledger = 75%nat)
  ∧ ((75 < length ledger)%nat ↔
     ∃ p, progressPercentage ledger = Some p ∧ 100 < p).
Proof.
  intros Hlen.
  assert (progressPercentage ledger = Some (100 * Z.of_nat (length ledger) / 75))
    as Hexact.
  { pose proof percentage_of_75_checked as Hall.
    rewrite forallb_forall in Hall. specialize (Hall (length ledger)).
    unfold progressPercentage.
    destruct (JsMath.percentage (Z.of_nat (length ledger)) 75) as [p|].
    - f_equal. apply Z.eqb_eq, Hall, in_seq. lia.
    - discriminate Hall. apply in_seq. lia. }
  rewrite Hexact. split; [done|]. split; [split|split].
  - intros [= Hp]. apply Nat2Z.inj. simpl.
    pose proof (Z.div_mod (100 * Z.of_nat (length ledger)) 75 ltac:(lia)).
    pose proof (Z.mod_pos_bound (100 * Z.of_nat (length ledger)) 75 ltac:(lia)).
    lia.
  - intros ->. reflexivity.
  - intros Hmore. eexists. split; [reflexivity|].
    apply Z.lt_le_trans with (100 * 76 / 75); [reflexivity|].
    apply Z.div_le_mono; lia.
  - intros (p & [= <-] & Hp). apply Nat2Z.inj_lt.
    destruct (Z.le_gt_cases (Z.of_nat (length ledger)) 75) as [Hle|Hgt]; [|lia].
    assert (100 * Z.of_nat (length ledger) / 75 ≤ 100 * 75 / 75)
      by (apply Z.div_le_mono; lia).
    change (100 * 75 / 75) with 100 in *. lia.
Qed.

Lemma progressPercentage_exact_witness :
  progressPercentage [1; 2; 3] = Some (100 * Z.of_nat (length [1; 2; 3]) / 75)
  ∧ (progressPercentage [1; 2; 3] = Some 100 ↔ length [1; 2; 3] = 75%nat)
  ∧ ((75 < length [1; 2; 3])%nat ↔
     ∃ p, progressPercentage [1; 2; 3] = Some p ∧ 100 < p).
Proof.
  apply (progressPercentage_exact [1; 2; 3]). simpl. lia.
Defined.

(** ** Further properties of the day progression *)

Lemma completeDay_blocked a :
  notYetCompleted a = false → completeDay a = a.
Proof. intros Hguard. unfold completeDay. by rewrite Hguard. Qed.

(** X10. A dead end for [completeDay]. Once the current day is in the
    ledger, no number of calls of [completeDay] changes anything: the
    state stays as it is until another handler or another document
    changes the counter or the ledger. *)
Theorem completeDay_stuck a (k : nat) :
  Js.includes (completedDays (slots a)) (currentDayNumber (slots a)) = true →
  Nat.iter k completeDay a = a.
Proof.
  intros Hin. induction k as [|k IH]; [reflexivity|].
  simpl. rewrite IH. apply completeDay_blocked.
  unfold notYetCompleted. by rewrite Hin.
Qed.

Lemma completeDay_stuck_witness : Nat.iter 5 completeDay recordedTracker = recordedTracker.
Proof. apply (completeDay_stuck recordedTracker 5). reflexivity. Defined.

Lemma completeDay_step a :
  currentDayNumber (slots a) ≤ currentDayNumber (slots (completeDay a))
                             ≤ currentDayNumber (slots a) + 1
  ∧ completedDays (slots a) `prefix_of` completedDays (slots (completeDay a)).
Proof.
  destruct (notYetCompleted a) eqn:Hguard.
  - destruct (completeDay_advances a Hguard) as [-> ->].
    split; [lia | by apply prefix_app_r].
  - rewrite completeDay_blocked by done. split; [lia | done].
Qed.

(** X11. From any state, calls of [completeDay] never lower the counter, raise
    it by at most one per call, and never remove or reorder a recorded
    day: the ledger of before is a prefix of the ledger of after. *)
Theorem completeDay_monotone a (k : nat) :
  currentDayNumber (slots a) ≤ currentDayNumber (slots (Nat.iter k completeDay a))
                             ≤ currentDayNumber (slots a) + Z.of_nat k
  ∧ completedDays (slots a) `prefix_of` completedDays (slots (Nat.iter k completeDay a)).
Proof.
  induction k as [|k [IHday IHdone]].
  - simpl. split; [lia | done].
  - simpl Nat.iter. destruct (completeDay_step (Nat.iter k completeDay a)) as [Hday Hdone].
    split; [lia | by etrans].
Qed.

Lemma tasksCompletedCount_unchecked taskName (t : Tasks) :
  taskValue taskName t = false → tasksCompletedCount t < 9.
Proof.
  destruct t as [b1 b2 b3 b4 b5 b6 b7 b8 b9].
  destruct taskName, b1, b2, b3, b4, b5, b6, b7, b8, b9; simpl; intros H;
    first [reflexivity | discriminate H].
Qed.

(** The button "Complete Day" does nothing as long as one of the nine
    tasks is unchecked. *)
Theorem clickCompleteDay_needs_all_tasks taskName a :
  taskValue taskName (tasks (slots a)) = false →
  clickCompleteDay a = a.
Proof.
  intros Hunchecked. unfold clickCompleteDay.
  apply tasksCompletedCount_unchecked in Hunchecked.
  by apply Z.ltb_lt in Hunchecked as ->.
Qed.

Lemma clickCompleteDay_needs_all_tasks_witness :
  clickCompleteDay freshTracker = freshTracker.
Proof.
  apply (clickCompleteDay_needs_all_tasks Reading freshTracker). reflexivity.
Defined.

Lemma clickCompleteDay_ready a :
  tasks (slots a) = allTasksDone →
  agrees (stored_todayTasks (disk a)) allTasksDone →
  clickCompleteDay a = completeDay a
  ∧ tasks (slots (completeDay a)) = allTasksDone
  ∧ agrees (stored_todayTasks (disk (completeDay a))) allTasksDone.
Proof.
  intros Htasks Hstored. unfold clickCompleteDay. rewrite Htasks. simpl.
  split; [done|]. unfold completeDay.
  destruct (notYetCompleted a); [|done]. simpl.
  destruct Hstored as [-> | ->]; simpl.
  - split; [done | by left].
  - split; [done | by right].
Qed.

(** X12. The tasks are carried over, not reset, when a day is completed.
    From day 1 with an empty ledger and the nine tasks checked, and with
    the medium holding either no tasks or the same nine checked tasks,
    [k] clicks on "Complete Day" complete [k] days in a row, and the nine
    tasks are still checked afterwards. *)
Theorem clickCompleteDay_k_times a (k : nat) :
  tasks (slots a) = allTasksDone →
  agrees (stored_todayTasks (disk a)) allTasksDone →
  currentDayNumber (slots a) = 1 → completedDays (slots a) = [] →
  currentDayNumber (slots (Nat.iter k clickCompleteDay a)) = Z.of_nat k + 1
  ∧ completedDays (slots (Nat.iter k clickCompleteDay a)) = oneTo k
  ∧ tasks (slots (Nat.iter k clickCompleteDay a)) = allTasksDone.
Proof.
  intros Htasks Hstored Hday Hdone.
  assert (Nat.iter k clickCompleteDay a = Nat.iter k completeDay a
          ∧ tasks (slots (Nat.iter k completeDay a)) = allTasksDone
          ∧ agrees (stored_todayTasks (disk (Nat.iter k completeDay a))) allTasksDone)
    as (Heq & Hk & _).
  { induction k as [|k (IHeq & IHtasks & IHstored)]; [done|].
    simpl Nat.iter. rewrite IHeq.
    destruct (clickCompleteDay_ready _ IHtasks IHstored) as (-> & ? & ?). done. }
  rewrite Heq. destruct (completeDay_iter_contiguous a k Hday Hdone) as [-> ->].
  done.
Qed.

Lemma clickCompleteDay_k_times_witness :
  currentDayNumber (slots (Nat.iter 3 clickCompleteDay readyTracker)) = Z.of_nat 3 + 1
  ∧ completedDays (slots (Nat.iter 3 clickCompleteDay readyTracker)) = oneTo 3
  ∧ tasks (slots (Nat.iter 3 clickCompleteDay readyTracker)) = allTasksDone.
Proof.
  apply (clickCompleteDay_k_times readyTracker 3); try reflexivity. by left.
Defined.

(** ** Properties of the calendar *)

Lemma includes_oneTo (k : nat) (i : Z) :
  1 ≤ i → Js.includes (oneTo k) i = (i <=? Z.of_nat k).
Proof.
  intros Hi. apply eq_true_iff_eq.
  rewrite includes_elem_of, elem_of_oneTo, Z.leb_le. lia.
Qed.

(** X13. The calendar after [k] days completed from the start: the cells 1 to
    [k] (as far as the grid goes) are shown completed, the cell [k + 1] is
    the only one marked current, and no cell is both. Past day 75 no cell
    is marked current any more. *)
Theorem renderCalendarGrid_after_k_days a (k : nat) :
  currentDayNumber (slots a) = 1 → completedDays (slots a) = [] →
  renderCalendarGrid (Nat.iter k completeDay a)
  = (λ i : Z, {| cellDay := i;
                 isCompleted := i <=? Z.of_nat k;
                 isCurrent := i =? Z.of_nat k + 1 |})
      <$> (Z.of_nat <$> seq 1 75)
  ∧ length (List.filter isCompleted (renderCalendarGrid (Nat.iter k completeDay a)))
    = Nat.min k 75
  ∧ Forall (λ cell, isCompleted cell && isCurrent cell = false)
      (renderCalendarGrid (Nat.iter k completeDay a))
  ∧ ((75 ≤ k)%nat →
     Forall (λ cell, isCurrent cell = false)
       (renderCalendarGrid (Nat.iter k completeDay a))).
Proof.
  intros Hday Hdone.
  destruct (completeDay_iter_contiguous a k Hday Hdone) as [Hk Hl].
  assert (renderCalendarGrid (Nat.iter k completeDay a)
          = (λ i : Z, {| cellDay := i;
                         isCompleted := i <=? Z.of_nat k;
                         isCurrent := i =? Z.of_nat k + 1 |})
              <$> (Z.of_nat <$> seq 1 75)) as Hgrid.
  { unfold renderCalendarGrid. rewrite Hk, Hl.
    apply list_fmap_ext. intros n i Hi.
    apply list_lookup_fmap_Some in Hi as (j & -> & Hj).
    apply lookup_seq in Hj as [-> _].
    by rewrite includes_oneTo by lia. }
  rewrite Hgrid. split; [done|]. split; [|split].
  - rewrite <- !list_fmap_compose.
    assert (∀ start len,
              length (List.filter isCompleted
                (((λ i : Z, {| cellDay := i; isCompleted := i <=? Z.of_nat k;
                               isCurrent := i =? Z.of_nat k + 1 |}) ∘ Z.of_nat)
                   <$> seq start len))
              = (Nat.min (start + len) (S k) - Nat.min start (S k))%nat) as Hcount.
    { intros start len. revert start.
      induction len as [|len IH]; intros start; [simpl; lia|].
      simpl. destruct (Z.leb_spec (Z.of_nat start) (Z.of_nat k));
        simpl; rewrite IH; lia. }
    rewrite Hcount. lia.
  - apply Forall_fmap, Forall_fmap, Forall_forall. intros n _. simpl.
    destruct (Z.leb_spec (Z.of_nat n) (Z.of_nat k)); [|done].
    simpl. apply Z.eqb_neq. lia.
  - intros Hlate. apply Forall_fmap, Forall_fmap, Forall_forall. intros n Hn. simpl.
    apply elem_of_seq in Hn. apply Z.eqb_neq. lia.
Qed.

Lemma renderCalendarGrid_after_k_days_witness :
  renderCalendarGrid (Nat.iter 80 completeDay freshTracker)
  = (λ i : Z, {| cellDay := i;
                 isCompleted := i <=? Z.of_nat 80;
                 isCurrent := i =? Z.of_nat 80 + 1 |})
      <$> (Z.of_nat <$> seq 1 75)
  ∧ length (List.filter isCompleted (renderCalendarGrid (Nat.iter 80 completeDay freshTracker)))
    = Nat.min 80 75
  ∧ Forall (λ cell, isCompleted cell && isCurrent cell = false)
      (renderCalendarGrid (Nat.iter 80 completeDay freshTracker))
  ∧ ((75 ≤ 80)%nat →
     Forall (λ cell, isCurrent cell = false)
       (renderCalendarGrid (Nat.iter 80 completeDay freshTracker))).
Proof.
  apply (renderCalendarGrid_after_k_days freshTracker 80); reflexivity.
Defined.

(** ** The slots and the medium *)

Lemma setter_inSync a :
  (∀ v, inSync (setCurrentDayNumber v a))
  ∧ (∀ v, inSync (setCompletedDays v a))
  ∧ (∀ v, inSync (setTasks v a))
  ∧ (∀ v, inSync (setWorkouts v a)).
Proof.
  destruct a as [s [d1 d2 d3 d4] f sel].
  repeat split; unfold agrees; simpl;
    first [by right | destruct d1; by auto | destruct d2; by auto
          | destruct d3; by auto | destruct d4; by auto].
Qed.

Lemma setter_frame a :
  inSync a →
  (∀ v, slots (setCurrentDayNumber v a)
        = {| currentDayNumber := v; completedDays := completedDays (slots a);
             tasks := tasks (slots a); workouts := workouts (slots a) |})
  ∧ (∀ v, slots (setCompletedDays v a)
          = {| currentDayNumber := currentDayNumber (slots a); completedDays := v;
               tasks := tasks (slots a); workouts := workouts (slots a) |})
  ∧ (∀ v, slots (setTasks v a)
          = {| currentDayNumber := currentDayNumber (slots a);
               completedDays := completedDays (slots a);
               tasks := v; workouts := workouts (slots a) |})
  ∧ (∀ v, slots (setWorkouts v a)
          = {| currentDayNumber := currentDayNumber (slots a);
               completedDays := completedDays (slots a);
               tasks := tasks (slots a); workouts := v |}).
Proof.
  destruct a as [[day done t ws] [d1 d2 d3 d4] f sel].
  unfold inSync, agrees. simpl. intros (H1 & H2 & H3 & H4).
  destruct H1 as [-> | ->], H2 as [-> | ->], H3 as [-> | ->], H4 as [-> | ->];
    repeat split.
Qed.

(** Every operation that writes a slot leaves the four slots in agreement
    with the medium, whatever the state was before: the update event makes
    each hook take over what its key holds. *)
Theorem write_establishes_inSync a :
  (∀ taskName, inSync (toggleTask taskName a))
  ∧ (∀ dayKey exerciseId, inSync (deleteExercise dayKey exerciseId a))
  ∧ (∀ now random ex exercises,
       inSync (addAllFromTemplate now random (ex :: exercises) a))
  ∧ (∀ stored taskName,
       stored_currentDayNumber (disk a) = Some stored →
       currentDayNumber (slots (toggleTask taskName a)) = stored).
Proof.
  split; [|split; [|split]].
  - intros taskName. apply setter_inSync.
  - intros dayKey exerciseId. apply setter_inSync.
  - intros now random ex exercises. apply setter_inSync.
  - intros stored taskName Hstored. unfold toggleTask, setTasks. simpl.
    by rewrite Hstored.
Qed.

Lemma write_establishes_inSync_witness :
  currentDayNumber
    (slots (toggleTask Diet
              {| slots := defaultSlots;
                 disk := {| stored_currentDayNumber := Some 5;
                            stored_completedDays := None;
                            stored_todayTasks := None;
                            stored_workouts := None |};
                 currentExercise := emptyForm; selectedDay := 1 |}))
  = 5.
Proof.
  apply (proj2 (proj2 (proj2 (write_establishes_inSync _))) 5 Diet). reflexivity.
Defined.

Lemma inSync_setCurrentExercise f a : inSync a → inSync (setCurrentExercise f a).
Proof. done. Qed.

(** X14. Agreement with the medium is an invariant of the component: every
    handler keeps it. *)
Theorem inSync_invariant a :
  inSync a →
  inSync (completeDay a)
  ∧ inSync (clickCompleteDay a)
  ∧ (∀ taskName, inSync (toggleTask taskName a))
  ∧ (∀ now, inSync (addExercise now a))
  ∧ (∀ dayKey exerciseId, inSync (deleteExercise dayKey exerciseId a))
  ∧ (∀ now random exercises, inSync (addAllFromTemplate now random exercises a))
  ∧ (∀ exerciseName setsReps, inSync (prefillExercise exerciseName setsReps a))
  ∧ (∀ field value, inSync (handleExerciseChange field value a)).
Proof.
  intros Hsync.
  assert (inSync (completeDay a)) as Hcomplete.
  { unfold completeDay. destruct (notYetCompleted a); [|done]. apply setter_inSync. }
  split; [done|]. split; [|split; [|split; [|split; [|split; [|split]]]]].
  - unfold clickCompleteDay. by destruct (_ <? _).
  - intros taskName. apply setter_inSync.
  - intros now. unfold addExercise. destruct (negb _); [done|].
    apply inSync_setCurrentExercise, setter_inSync.
  - intros dayKey exerciseId. apply setter_inSync.
  - intros now random [|ex exercises]; [done|]. apply setter_inSync.
  - intros exerciseName setsReps. by apply inSync_setCurrentExercise.
  - intros field value. by apply inSync_setCurrentExercise.
Qed.

Lemma inSync_freshTracker : inSync freshTracker.
Proof. repeat split; by left. Qed.

Lemma inSync_invariant_witness :
  inSync (completeDay freshTracker)
  ∧ inSync (clickCompleteDay freshTracker)
  ∧ (∀ taskName, inSync (toggleTask taskName freshTracker))
  ∧ (∀ now, inSync (addExercise now freshTracker))
  ∧ (∀ dayKey exerciseId, inSync (deleteExercise dayKey exerciseId freshTracker))
  ∧ (∀ now random exercises,
       inSync (addAllFromTemplate now random exercises freshTracker))
  ∧ (∀ exerciseName setsReps, inSync (prefillExercise exerciseName setsReps freshTracker))
  ∧ (∀ field value, inSync (handleExerciseChange field value freshTracker)).
Proof. apply (inSync_invariant freshTracker). exact inSync_freshTracker. Defined.

(** X15. While the slots agree with the medium, each handler changes its own
    slots only: completing a day keeps the tasks and the workout log,
    toggling a task keeps the counter, the ledger and the log, and the
    three operations of the workout log keep the counter, the ledger and
    the tasks. *)
Theorem handlers_frame a :
  inSync a →
  (tasks (slots (completeDay a)) = tasks (slots a)
   ∧ workouts (slots (completeDay a)) = workouts (slots a))
  ∧ (∀ taskName,
       currentDayNumber (slots (toggleTask taskName a)) = currentDayNumber (slots a)
       ∧ completedDays (slots (toggleTask taskName a)) = completedDays (slots a)
       ∧ workouts (slots (toggleTask taskName a)) = workouts (slots a))
  ∧ (∀ b, (∃ now, b = addExercise now a)
          ∨ (∃ dayKey exerciseId, b = deleteExercise dayKey exerciseId a)
          ∨ (∃ now random exercises, b = addAllFromTemplate now random exercises a) →
          currentDayNumber (slots b) = currentDayNumber (slots a)
          ∧ completedDays (slots b) = completedDays (slots a)
          ∧ tasks (slots b) = tasks (slots a)).
Proof.
  intros Hsync. destruct (setter_frame a Hsync) as (Hday & Hdone & Htasks & Hws).
  split; [|split].
  - unfold completeDay. destruct (notYetCompleted a); [|done].
    pose proof (proj1 (proj2 (setter_inSync a))
                  (completedDays (slots a) ++ [currentDayNumber (slots a)])) as Hsync'.
    destruct (setter_frame _ Hsync') as (Hday' & _). rewrite Hday'.
    cbn [tasks workouts]. by rewrite Hdone.
  - intros taskName. unfold toggleTask. by rewrite Htasks.
  - intros b [(now & ->) | [(dayKey & exerciseId & ->) | (now & random & exercises & ->)]].
    + unfold addExercise. destruct (negb _); [done|].
      unfold setCurrentExercise. cbn [slots]. by rewrite Hws.
    + unfold deleteExercise. by rewrite Hws.
    + destruct exercises as [|ex exercises]; [done|].
      unfold addAllFromTemplate. by rewrite Hws.
Qed.

Lemma handlers_frame_witness :
  (tasks (slots (completeDay freshTracker)) = tasks (slots freshTracker)
   ∧ workouts (slots (completeDay freshTracker)) = workouts (slots freshTracker))
  ∧ (∀ taskName,
       currentDayNumber (slots (toggleTask taskName freshTracker))
       = currentDayNumber (slots freshTracker)
       ∧ completedDays (slots (toggleTask taskName freshTracker))
         = completedDays (slots freshTracker)
       ∧ workouts (slots (toggleTask taskName freshTracker))
         = workouts (slots freshTracker))
  ∧ (∀ b, (∃ now, b = addExercise now freshTracker)
          ∨ (∃ dayKey exerciseId, b = deleteExercise dayKey exerciseId freshTracker)
          ∨ (∃ now random exercises,
               b = addAllFromTemplate now random exercises freshTracker) →
          currentDayNumber (slots b) = currentDayNumber (slots freshTracker)
          ∧ completedDays (slots b) = completedDays (slots freshTracker)
          ∧ tasks (slots b) = tasks (slots freshTracker)).
Proof. apply (handlers_frame freshTracker). exact inSync_freshTracker. Defined.

(** ** Further properties of the workout log *)

Lemma filter_id_ne_absent exerciseId (l : list Exercise) :
  exerciseId ∉ id <$> l → filter (λ ex, id ex ≠ exerciseId) l = l.
Proof.
  induction l as [|ex l IH]; [reflexivity|]. rewrite fmap_cons, not_elem_of_cons.
  intros [Hne Hnotin]. rewrite filter_cons, decide_True by done. by rewrite IH.
Qed.

Lemma selectedDay_addExercise now a : selectedDay (addExercise now a) = selectedDay a.
Proof. unfold addExercise. by destruct (negb _). Qed.

(** X16. Round trip. An exercise that was just added, under an identifier that
    no entry of the day carried, is removed again by [deleteExercise] with
    that identifier: the day holds the entries it held before the add. *)
Theorem addExercise_then_deleteExercise now a :
  Js.truthy (form_name (currentExercise a)) = true →
  Js.toString now ∉ loggedIds (dayKeyOf (selectedDay a)) a →
  dayWorkouts (dayKeyOf (selectedDay a))
    (workouts (slots (deleteExercise (dayKeyOf (selectedDay a)) (Js.toString now)
                        (addExercise now a))))
  = dayWorkouts (dayKeyOf (selectedDay a)) (workouts (slots a)).
Proof.
  intros Hname Hfresh. rewrite deleteExercise_dayWorkouts, addExercise_appends by done.
  rewrite filter_app, filter_id_ne_absent by done.
  rewrite filter_cons, decide_False by (simpl; auto). by rewrite filter_nil, app_nil_r.
Qed.

Lemma addExercise_then_deleteExercise_witness :
  dayWorkouts (dayKeyOf (selectedDay addedOnce))
    (workouts (slots (deleteExercise (dayKeyOf (selectedDay addedOnce)) (Js.toString 1700000000001)
                        (addExercise 1700000000001
                           (setCurrentExercise benchForm addedOnce)))))
  = dayWorkouts (dayKeyOf (selectedDay addedOnce)) (workouts (slots addedOnce)).
Proof.
  apply (addExercise_then_deleteExercise 1700000000001
           (setCurrentExercise benchForm addedOnce)).
  - reflexivity.
  - vm_compute. intros Hin. apply list_elem_of_In in Hin.
    destruct Hin as [Heq|[]]. discriminate Heq.
Defined.

(** X17. After [deleteExercise] no entry of the day carries the identifier; the
    entries that remain are those with another identifier, in the order
    they had; a second call with the same arguments changes nothing more;
    and the sequences of the other days are untouched. *)
Theorem deleteExercise_removes_id dayKey exerciseId a :
  (exerciseId ∉ loggedIds dayKey (deleteExercise dayKey exerciseId a))
  ∧ loggedIds dayKey (deleteExercise dayKey exerciseId a)
    = filter (λ i, i ≠ exerciseId) (loggedIds dayKey a)
  ∧ workouts (slots (deleteExercise dayKey exerciseId (deleteExercise dayKey exerciseId a)))
    = workouts (slots (deleteExercise dayKey exerciseId a))
  ∧ ∀ otherKey, otherKey = dayKey
                ∨ workouts (slots (deleteExercise dayKey exerciseId a)) !! otherKey
                  = workouts (slots a) !! otherKey.
Proof.
  assert (∀ l : list Exercise,
            id <$> filter (λ ex, id ex ≠ exerciseId) l
            = filter (λ i, i ≠ exerciseId) (id <$> l)) as Hids.
  { induction l as [|ex l IH]; [reflexivity|].
    rewrite fmap_cons, !filter_cons.
    destruct (decide (id ex ≠ exerciseId)); [rewrite fmap_cons|]; by rewrite IH. }
  split; [|split; [|split]].
  - unfold loggedIds. rewrite deleteExercise_dayWorkouts, Hids.
    intros Hin. apply list_elem_of_filter in Hin as [Hne _]. by apply Hne.
  - unfold loggedIds. by rewrite deleteExercise_dayWorkouts, Hids.
  - unfold deleteExercise at 1. rewrite setWorkouts_workouts.
    rewrite deleteExercise_dayWorkouts.
    unfold deleteExercise. rewrite setWorkouts_workouts.
    rewrite insert_insert_eq. f_equal.
    apply list_filter_filter_l. auto.
  - intros otherKey. destruct (decide (otherKey = dayKey)) as [->|Hne]; [by left|].
    right. unfold deleteExercise. rewrite setWorkouts_workouts.
    by rewrite lookup_insert_ne.
Qed.

(** X18. A second click on "add" right after a successful one adds nothing:
    the form was emptied by the first. *)
Theorem addExercise_twice_in_a_row now later a :
  addExercise later (addExercise now a) = addExercise now a.
Proof.
  assert (∀ b, currentExercise b = emptyForm → addExercise later b = b) as Hempty.
  { intros b Hform. unfold addExercise. by rewrite Hform. }
  destruct (negb (Js.truthy (form_name (currentExercise a)))) eqn:Hname.
  - assert (addExercise now a = a) as -> by (unfold addExercise; by rewrite Hname).
    unfold addExercise. by rewrite Hname.
  - apply Hempty. unfold addExercise. by rewrite Hname.
Qed.

(** X19. What is typed into the form is what is logged: after a name is typed
    and "add" is clicked, the last entry of the selected day carries that
    name, the other fields of the form and the clock reading as
    identifier; the form is empty again. *)
Theorem addExercise_after_typing now exerciseName a :
  Js.truthy exerciseName = true →
  dayWorkouts (dayKeyOf (selectedDay a))
    (workouts (slots (addExercise now (handleExerciseChange FieldName exerciseName a))))
  = dayWorkouts (dayKeyOf (selectedDay a)) (workouts (slots a))
    ++ [ {| id := Js.toString now;
            name := exerciseName;
            weight := form_weight (currentExercise a);
            sets := form_sets (currentExercise a);
            reps := form_reps (currentExercise a);
            notes := form_notes (currentExercise a) |} ]
  ∧ currentExercise (addExercise now (handleExerciseChange FieldName exerciseName a))
    = emptyForm.
Proof.
  intros Hname. split.
  - exact (addExercise_appends now (handleExerciseChange FieldName exerciseName a) Hname).
  - unfold addExercise. simpl. by rewrite Hname.
Qed.

Lemma addExercise_after_typing_witness :
  dayWorkouts (dayKeyOf (selectedDay freshTracker))
    (workouts (slots (addExercise 1700000000000
                        (handleExerciseChange FieldName "Squat" freshTracker))))
  = dayWorkouts (dayKeyOf (selectedDay freshTracker)) (workouts (slots freshTracker))
    ++ [ {| id := Js.toString 1700000000000;
            name := "Squat";
            weight := form_weight (currentExercise freshTracker);
            sets := form_sets (currentExercise freshTracker);
            reps := form_reps (currentExercise freshTracker);
            notes := form_notes (currentExercise freshTracker) |} ]
  ∧ currentExercise (addExercise 1700000000000
                       (handleExerciseChange FieldName "Squat" freshTracker))
    = emptyForm.
Proof.
  apply (addExercise_after_typing 1700000000000 "Squat" freshTracker). reflexivity.
Defined.

Lemma dayKeyOf_inj d1 d2 : dayKeyOf d1 = dayKeyOf d2 → d1 = d2.
Proof.
  unfold dayKeyOf, Js.toString. intros Heq.
  apply (inj (String.app "day-")) in Heq. by apply (inj pretty) in Heq.
Qed.

(** X20. Days do not mix: adding to, deleting from or filling from a template
    the selected day leaves the entries of every other day as they were. *)
Theorem other_days_untouched (day : Z) a :
  day ≠ selectedDay a →
  (∀ now, dayWorkouts (dayKeyOf day) (workouts (slots (addExercise now a)))
          = dayWorkouts (dayKeyOf day) (workouts (slots a)))
  ∧ (∀ exerciseId,
       dayWorkouts (dayKeyOf day)
         (workouts (slots (deleteExercise (dayKeyOf (selectedDay a)) exerciseId a)))
       = dayWorkouts (dayKeyOf day) (workouts (slots a)))
  ∧ (∀ now random exercises,
       dayWorkouts (dayKeyOf day)
         (workouts (slots (addAllFromTemplate now random exercises a)))
       = dayWorkouts (dayKeyOf day) (workouts (slots a))).
Proof.
  intros Hday.
  assert (dayKeyOf (selectedDay a) ≠ dayKeyOf day) as Hkey
    by (intros Heq; by apply dayKeyOf_inj in Heq).
  split; [|split].
  - intros now. unfold addExercise. destruct (negb _); [done|]. simpl.
    by apply dayWorkouts_insert_ne.
  - intros exerciseId. unfold deleteExercise. rewrite setWorkouts_workouts.
    by apply dayWorkouts_insert_ne.
  - intros now random [|ex exercises]; [done|].
    unfold addAllFromTemplate. rewrite setWorkouts_workouts.
    by apply dayWorkouts_insert_ne.
Qed.

Lemma other_days_untouched_witness :
  (∀ now, dayWorkouts (dayKeyOf 2)
            (workouts (slots (addExercise now (setCurrentExercise benchForm addedOnce))))
          = dayWorkouts (dayKeyOf 2)
              (workouts (slots (setCurrentExercise benchForm addedOnce))))
  ∧ (∀ exerciseId,
       dayWorkouts (dayKeyOf 2)
         (workouts (slots (deleteExercise
                             (dayKeyOf (selectedDay (setCurrentExercise benchForm addedOnce)))
                             exerciseId (setCurrentExercise benchForm addedOnce))))
       = dayWorkouts (dayKeyOf 2)
           (workouts (slots (setCurrentExercise benchForm addedOnce))))
  ∧ (∀ now random exercises,
       dayWorkouts (dayKeyOf 2)
         (workouts (slots (addAllFromTemplate now random exercises
                             (setCurrentExercise benchForm addedOnce))))
       = dayWorkouts (dayKeyOf 2)
           (workouts (slots (setCurrentExercise benchForm addedOnce)))).
Proof.
  apply (other_days_untouched 2 (setCurrentExercise benchForm addedOnce)).
  discriminate.
Defined.

Lemma selectedDay_addExercises entries a :
  selectedDay (addExercises entries a) = selectedDay a.
Proof.
  revert a. induction entries as [|entry entries IH]; intros a; [reflexivity|].
  simpl. rewrite IH. by rewrite selectedDay_addExercise.
Qed.

Lemma addExercises_loggedIds entries a :
  Forall (λ entry : Z * ExerciseForm, Js.truthy (form_name entry.2) = true) entries →
  loggedIds (dayKeyOf (selectedDay a)) (addExercises entries a)
  = loggedIds (dayKeyOf (selectedDay a)) a ++ (Js.toString ∘ fst <$> entries).
Proof.
  revert a. induction entries as [|entry entries IH]; intros a Hnames.
  - simpl. by rewrite app_nil_r.
  - apply Forall_cons in Hnames as [Hname Hnames]. simpl.
    pose proof (IH (addExercise entry.1 (setCurrentExercise entry.2 a)) Hnames) as Hrest.
    rewrite selectedDay_addExercise in Hrest. simpl selectedDay in Hrest.
    rewrite Hrest. unfold loggedIds at 1.
    pose proof (addExercise_appends entry.1 (setCurrentExercise entry.2 a) Hname) as Happ.
    change (selectedDay (setCurrentExercise entry.2 a)) with (selectedDay a) in Happ.
    rewrite Happ, fmap_app, <- app_assoc. reflexivity.
Qed.

(** X21. Exercises added at pairwise distinct clock readings get pairwise
    distinct identifiers; on a day that was empty every one of them can
    then be deleted on its own: [deleteExercise] with its identifier
    removes exactly one entry. *)
Theorem addExercises_distinct_clocks entries a :
  Forall (λ entry : Z * ExerciseForm, Js.truthy (form_name entry.2) = true) entries →
  NoDup (fst <$> entries) →
  loggedIds (dayKeyOf (selectedDay a)) a = [] →
  NoDup (loggedIds (dayKeyOf (selectedDay a)) (addExercises entries a))
  ∧ entryCount (dayKeyOf (selectedDay a)) (addExercises entries a) = length entries
  ∧ Forall (λ entry : Z * ExerciseForm,
              S (entryCount (dayKeyOf (selectedDay a))
                   (deleteExercise (dayKeyOf (selectedDay a)) (Js.toString entry.1)
                      (addExercises entries a)))
              = length entries) entries.
Proof.
  intros Hnames Hclocks Hempty.
  pose proof (addExercises_loggedIds entries a Hnames) as Hids.
  rewrite Hempty in Hids. simpl in Hids.
  assert (NoDup (loggedIds (dayKeyOf (selectedDay a)) (addExercises entries a))) as Hnodup.
  { rewrite Hids, list_fmap_compose. apply NoDup_fmap_2; [|done].
    unfold Js.toString. apply _. }
  assert (entryCount (dayKeyOf (selectedDay a)) (addExercises entries a) = length entries)
    as Hcount.
  { unfold entryCount. transitivity (length (loggedIds (dayKeyOf (selectedDay a))
                                               (addExercises entries a))).
    - unfold loggedIds. by rewrite length_fmap.
    - by rewrite Hids, length_fmap. }
  split; [done|]. split; [done|].
  apply Forall_forall. intros entry Hentry.
  pose proof (deleteExercise_removes_all (dayKeyOf (selectedDay a)) (Js.toString entry.1)
                (addExercises entries a)) as Hremoved.
  rewrite filter_id_eq_once in Hremoved.
  - lia.
  - exact Hnodup.
  - fold (loggedIds (dayKeyOf (selectedDay a)) (addExercises entries a)).
    rewrite Hids. apply list_elem_of_fmap. by exists entry.
Qed.

Lemma addExercises_distinct_clocks_witness :
  NoDup (loggedIds (dayKeyOf (selectedDay freshTracker))
           (addExercises [(1700000000000, squatForm); (1700000000001, benchForm)]
              freshTracker))
  ∧ entryCount (dayKeyOf (selectedDay freshTracker))
      (addExercises [(1700000000000, squatForm); (1700000000001, benchForm)] freshTracker)
    = length [(1700000000000, squatForm); (1700000000001, benchForm)]
  ∧ Forall (λ entry : Z * ExerciseForm,
              S (entryCount (dayKeyOf (selectedDay freshTracker))
                   (deleteExercise (dayKeyOf (selectedDay freshTracker))
                      (Js.toString entry.1)
                      (addExercises [(1700000000000, squatForm); (1700000000001, benchForm)]
                         freshTracker)))
              = length [(1700000000000, squatForm); (1700000000001, benchForm)])
      [(1700000000000, squatForm); (1700000000001, benchForm)].
Proof.
  apply (addExercises_distinct_clocks
           [(1700000000000, squatForm); (1700000000001, benchForm)] freshTracker).
  - repeat constructor.
  - simpl. apply NoDup_cons. split; [|apply NoDup_singleton].
    intros Hin. apply list_elem_of_In in Hin. destruct Hin as [Heq|[]]. discriminate Heq.
  - reflexivity.
Defined.

(** *** Texts of the catalogue *)

Lemma split_at_separator sep (before after : string) :
  sep ∉ String.list_ascii_of_string before →
  Js.split sep (before +:+ String sep after) = before :: Js.split sep after.
Proof.
  induction before as [|c before IH]; simpl.
  - intros _. by rewrite Ascii.eqb_refl.
  - rewrite not_elem_of_cons. intros [Hne Hnotin]. rewrite IH by done.
    destruct (Ascii.eqb_spec c sep) as [Heq|_]; [by destruct Hne | reflexivity].
Qed.

(** How [addAllFromTemplate] cuts a text at its first letter x: the [sets]
    field is what stands before it, trimmed, and the [reps] field is what
    the same cut makes of the rest, so it ends at the next x. *)
Theorem template_text_cut (before after : string) :
  "x"%char ∉ String.list_ascii_of_string before →
  templateSets (before +:+ String "x"%char after) = Js.trim before
  ∧ templateReps (before +:+ String "x"%char after) = templateSets after.
Proof.
  intros Hbefore. unfold templateSets, templateReps.
  rewrite split_at_separator by done. done.
Qed.

Lemma template_text_cut_witness :
  templateSets ("3 " +:+ String "x"%char " 45 sec") = Js.trim "3 "
  ∧ templateReps ("3 " +:+ String "x"%char " 45 sec") = templateSets " 45 sec".
Proof.
  apply (template_text_cut "3 " " 45 sec").
  intros Hin. apply list_elem_of_In in Hin. simpl in Hin.
  repeat (destruct Hin as [Heq|Hin]; [discriminate Heq|]). destruct Hin.
Defined.

Lemma NoDup_imap_inj {A B} (f : nat → A → B) (l : list A) :
  (∀ i j x y, f i x = f j y → i = j) → NoDup (imap f l).
Proof.
  revert f. induction l as [|x l IH]; intros f Hinj; [constructor|].
  simpl. apply NoDup_cons. split.
  - intros Hin. apply elem_of_lookup_imap in Hin as (j & y & Heq & _).
    apply Hinj in Heq. discriminate Heq.
  - apply IH. intros i j y z Heq. apply Hinj in Heq. by injection Heq.
Qed.


(** ** Properties of the form prefill *)

Lemma list_ascii_of_string_app (s1 s2 : string) :
  String.list_ascii_of_string (s1 +:+ s2)
  = String.list_ascii_of_string s1 ++ String.list_ascii_of_string s2.
Proof. induction s1 as [|c s1 IH]; simpl; [done | by rewrite IH]. Qed.

Lemma string_app_cons c (s1 s2 : string) : String c s1 +:+ s2 = String c (s1 +:+ s2).
Proof. reflexivity. Qed.

Lemma string_app_assoc (s1 s2 s3 : string) : (s1 +:+ s2) +:+ s3 = s1 +:+ (s2 +:+ s3).
Proof.
  induction s1 as [|c s1 IH]; [done|]. rewrite !string_app_cons. by f_equal.
Qed.

Lemma string_length_app (s1 s2 : string) :
  String.length (s1 +:+ s2) = (String.length s1 + String.length s2)%nat.
Proof.
  induction s1 as [|c s1 IH]; [done|]. rewrite string_app_cons. simpl. by f_equal.
Qed.

Lemma consumed_app (pre rest : string) : RegExp.consumed (pre +:+ rest) rest = pre.
Proof.
  unfold RegExp.consumed. rewrite string_length_app.
  replace (String.length pre + String.length rest - String.length rest)%nat
    with (String.length pre) by lia.
  induction pre as [|c pre IH]; [by destruct rest|].
  rewrite string_app_cons. simpl. by rewrite IH.
Qed.

Lemma allIn_nil c : allIn c EmptyString.
Proof. constructor. Qed.

Lemma allIn_cons c x str :
  allIn c (String x str) ↔ RegExp.inClass c x = true ∧ allIn c str.
Proof.
  unfold allIn. simpl. apply (Forall_cons (λ y, RegExp.inClass c y = true)).
Qed.

Lemma afterStar_elem c str rest :
  rest ∈ RegExp.afterStar c str → ∃ pre, str = pre +:+ rest ∧ allIn c pre.
Proof.
  revert rest. induction str as [|x str IH]; intros rest; simpl.
  - intros Hin. apply list_elem_of_singleton in Hin as ->.
    exists EmptyString. split; [done | apply allIn_nil].
  - destruct (RegExp.inClass c x) eqn:Hx.
    + rewrite elem_of_app, list_elem_of_singleton. intros [Hin| ->].
      * destruct (IH _ Hin) as (pre & -> & Hpre).
        exists (String x pre). split; [done | by apply allIn_cons].
      * exists EmptyString. split; [done | apply allIn_nil].
    + intros Hin. apply list_elem_of_singleton in Hin as ->.
      exists EmptyString. split; [done | apply allIn_nil].
Qed.

Lemma afterPlus_elem c str rest :
  rest ∈ RegExp.afterPlus c str →
  ∃ pre, str = pre +:+ rest ∧ pre ≠ EmptyString ∧ allIn c pre.
Proof.
  destruct str as [|x str]; simpl; [intros Hin; by apply elem_of_nil in Hin|].
  destruct (RegExp.inClass c x) eqn:Hx; [|intros Hin; by apply elem_of_nil in Hin].
  intros Hin. destruct (afterStar_elem _ _ _ Hin) as (pre & -> & Hpre).
  exists (String x pre). split; [done|]. split; [done | by apply allIn_cons].
Qed.

Lemma afterLit_Some text str rest :
  RegExp.afterLit text str = Some rest → str = text +:+ rest.
Proof.
  revert str. induction text as [|c text IH]; intros str; simpl.
  - by intros [= ->].
  - destruct str as [|d str]; [done|].
    destruct (Ascii.eqb_spec c d) as [->|]; [|done].
    intros Hrest. by rewrite (IH _ Hrest).
Qed.

Lemma head_bind {A B} (f : A → list B) (l : list A) (y : B) :
  head (l ≫= f) = Some y → ∃ x, x ∈ l ∧ head (f x) = Some y.
Proof.
  induction l as [|x l IH]; [done|]. rewrite bind_cons.
  destruct (f x) as [|z zs] eqn:Hfx.
  - intros Hhead. destruct (IH Hhead) as (x' & Hin & Hx').
    exists x'. split; [by right | done].
  - intros [= ->]. exists x. split; [by left | by rewrite Hfx].
Qed.

(** The alternatives of the second group, tried in order at [str]: the
    preferred match takes a run of digits, or else one of the two words. *)
Lemma run_repsAlternatives str caps rest caps' :
  head (RegExp.run repsAlternatives str caps) = Some (rest, caps') →
  caps' = caps
  ∧ ∃ pre, str = pre +:+ rest ∧ (digitsOnly pre ∨ pre = "Max" ∨ pre = "max").
Proof.
  unfold repsAlternatives. cbn [RegExp.run].
  destruct (RegExp.afterPlus RegExp.Digit str) as [|r rs] eqn:Hplus.
  - rewrite fmap_nil. cbn [mbind list_bind app].
    destruct (RegExp.afterLit "Max" str) as [r|] eqn:Hmax.
    { cbn [app head]. intros [= <- <-]. split; [done|]. exists "Max".
      split; [by apply afterLit_Some | auto]. }
    destruct (RegExp.afterLit "max" str) as [r|] eqn:Hmin; [|done].
    cbn [app head].
    intros [= <- <-]. split; [done|]. exists "max".
    split; [by apply afterLit_Some | auto].
  - rewrite fmap_cons. cbn [app head]. intros [= <- <-]. split; [done|].
    destruct (afterPlus_elem RegExp.Digit str r) as (pre & Hstr & Hne & Hpre).
    { rewrite Hplus. by left. }
    exists pre. split; [done|]. left. by split.
Qed.

(** Every preferred match of the pattern at the start of a text captures
    digits in the first group and digits or one of the two words in the
    second; the text then holds the letter x. *)
Lemma run_setsRepsPattern str rest caps :
  head (RegExp.run setsRepsPattern str []) = Some (rest, caps) →
  ∃ n m, caps = [(2%nat, m); (1%nat, n)]
         ∧ digitsOnly n
         ∧ (digitsOnly m ∨ m = "Max" ∨ m = "max")
         ∧ "x"%char ∈ String.list_ascii_of_string str.
Proof.
  unfold setsRepsPattern. cbn [RegExp.run]. intros Hhead.
  apply head_bind in Hhead as ([s1 c1] & H1 & Hhead).
  apply list_elem_of_fmap in H1 as ([s1' c1'] & [= -> ->] & H1).
  apply list_elem_of_fmap in H1 as (r1 & [= -> ->] & H1).
  apply afterPlus_elem in H1 as (n & -> & Hn & Hdigits).
  rewrite consumed_app in Hhead. cbn [fst snd] in Hhead.
  apply head_bind in Hhead as ([s2 c2] & H2 & Hhead).
  apply list_elem_of_fmap in H2 as (r2 & [= -> ->] & H2).
  apply afterStar_elem in H2 as (w1 & -> & _). cbn [fst snd] in Hhead.
  apply head_bind in Hhead as ([s3 c3] & H3 & Hhead).
  destruct (RegExp.afterLit "x" r2) as [r3|] eqn:Hx; [|by apply elem_of_nil in H3].
  apply list_elem_of_singleton in H3 as [= -> ->].
  apply afterLit_Some in Hx as ->. cbn [fst snd] in Hhead.
  apply head_bind in Hhead as ([s4 c4] & H4 & Hhead).
  apply list_elem_of_fmap in H4 as (r4 & [= -> ->] & H4). cbn [fst snd] in Hhead.
  destruct (RegExp.run repsAlternatives r4 [(1%nat, n)]) as [|[r5 c5] rs] eqn:Hrun;
    [done|].
  injection Hhead as <- <-.
  destruct (run_repsAlternatives r4 [(1%nat, n)] r5 c5) as (-> & m & -> & Hm).
  { by rewrite Hrun. }
  exists n, m. rewrite consumed_app. split; [done|]. split; [by split|]. split; [done|].
  rewrite !list_ascii_of_string_app. simpl.
  apply elem_of_app. right. apply elem_of_app. right. by left.
Qed.

Lemma exec_Some p text caps :
  RegExp.exec p text = Some caps →
  ∃ skipped str rest, text = skipped +:+ str
                      ∧ head (RegExp.run p str []) = Some (rest, caps).
Proof.
  induction text as [|c text IH]; simpl.
  - destruct (RegExp.run p EmptyString []) as [|[rest caps'] rs] eqn:Hrun; [done|].
    intros [= <-]. exists EmptyString, EmptyString, rest. by rewrite Hrun.
  - destruct (RegExp.run p (String c text) []) as [|[rest caps'] rs] eqn:Hrun.
    + intros Hexec. destruct (IH Hexec) as (skipped & str & rest & -> & Hhead).
      by exists (String c skipped), str, rest.
    + intros [= <-]. exists EmptyString, (String c text), rest. by rewrite Hrun.
Qed.

(** X23. What the prefill can put into the form. Either both fields are empty,
    or [sets] is a non-empty run of digits and [reps] is a non-empty run
    of digits or one of the words "Max" and "max": a unit such as "sec" or
    "min" after the number is never part of [reps], because the
    alternative that takes the bare digits comes first in the pattern. *)
Theorem parseSetsReps_shape (text : string) :
  parseSetsReps text = (EmptyString, EmptyString)
  ∨ (digitsOnly (parseSetsReps text).1
     ∧ (digitsOnly (parseSetsReps text).2
        ∨ (parseSetsReps text).2 = "Max" ∨ (parseSetsReps text).2 = "max")).
Proof.
  unfold parseSetsReps. destruct (Js.truthy text); [|by left].
  destruct (RegExp.exec setsRepsPattern text) as [caps|] eqn:Hexec; [|by left].
  apply exec_Some in Hexec as (skipped & str & rest & _ & Hhead).
  apply run_setsRepsPattern in Hhead as (n & m & -> & Hn & Hm & _).
  right. simpl. by split.
Qed.

(** X24. A text without the letter x fills nothing in: both fields of the form
    stay empty (where [addAllFromTemplate] puts the whole text into
    [sets]). *)
Theorem parseSetsReps_without_x (text : string) :
  "x"%char ∉ String.list_ascii_of_string text →
  parseSetsReps text = (EmptyString, EmptyString)
  ∧ templateSets text = Js.trim text.
Proof.
  intros Hnox. split; [|by apply template_text_without_x].
  unfold parseSetsReps. destruct (Js.truthy text); [|done].
  destruct (RegExp.exec setsRepsPattern text) as [caps|] eqn:Hexec; [|done].
  apply exec_Some in Hexec as (skipped & str & rest & -> & Hhead).
  apply run_setsRepsPattern in Hhead as (n & m & _ & _ & _ & Hx).
  destruct Hnox. rewrite list_ascii_of_string_app. apply elem_of_app. by right.
Qed.

Lemma parseSetsReps_without_x_witness :
  parseSetsReps "15 min" = (EmptyString, EmptyString)
  ∧ templateSets "15 min" = Js.trim "15 min".
Proof.
  apply (parseSetsReps_without_x "15 min").
  intros Hin. apply list_elem_of_In in Hin. simpl in Hin.
  repeat (destruct Hin as [Heq|Hin]; [discriminate Heq|]). destruct Hin.
Defined.

Lemma whiteSpace_not_digit x :
  RegExp.inClass RegExp.WhiteSpace x = true → RegExp.inClass RegExp.Digit x = false.
Proof. destruct x as [[] [] [] [] [] [] [] []]; by vm_compute. Qed.

Lemma digit_not_whiteSpace x :
  RegExp.inClass RegExp.Digit x = true → RegExp.inClass RegExp.WhiteSpace x = false.
Proof. destruct x as [[] [] [] [] [] [] [] []]; by vm_compute. Qed.

Lemma afterStar_head c pre rest :
  allIn c pre → startsIn c rest = false →
  ∃ others, RegExp.afterStar c (pre +:+ rest) = rest :: others.
Proof.
  intros Hpre Hrest. induction pre as [|x pre IH].
  - exists []. destruct rest as [|y rest]; [done|]. simpl in *. by rewrite Hrest.
  - apply allIn_cons in Hpre as [Hx Hpre]. destruct (IH Hpre) as [others Hothers].
    rewrite string_app_cons. simpl. rewrite Hx, Hothers. by eexists.
Qed.

Lemma afterPlus_head c pre rest :
  pre ≠ EmptyString → allIn c pre → startsIn c rest = false →
  ∃ others, RegExp.afterPlus c (pre +:+ rest) = rest :: others.
Proof.
  intros Hne Hpre Hrest. destruct pre as [|x pre]; [done|].
  apply allIn_cons in Hpre as [Hx Hpre].
  rewrite string_app_cons. simpl. rewrite Hx. by apply afterStar_head.
Qed.

Lemma startsIn_app c pre rest :
  pre ≠ EmptyString → startsIn c (pre +:+ rest) = startsIn c pre.
Proof. by destruct pre. Qed.

Lemma exec_head p str r :
  head (RegExp.run p str []) = Some r → RegExp.exec p str = Some r.2.
Proof.
  intros Hrun. destruct str; simpl;
    destruct (RegExp.run p _ []) as [|r' rs]; by simplify_eq/=.
Qed.

Lemma head_bind_first {A B} (f : A → list B) (l : list A) x y :
  head l = Some x → head (f x) = Some y → head (l ≫= f) = Some y.
Proof.
  destruct l as [|x' l]; [done|]. intros [= ->]. rewrite bind_cons.
  by destruct (f x).
Qed.

Lemma parseSetsReps_leading_numbers (n w1 w2 m tail : string) :
  digitsOnly n → allIn RegExp.WhiteSpace w1 → allIn RegExp.WhiteSpace w2 →
  digitsOnly m → startsIn RegExp.Digit tail = false →
  parseSetsReps (n +:+ w1 +:+ "x" +:+ w2 +:+ m +:+ tail) = (n, m).
Proof.
  intros [Hn Hdn] Hw1 Hw2 [Hm Hdm] Htail.
  assert (startsIn RegExp.WhiteSpace (m +:+ tail) = false) as Hsm.
  { destruct m as [|x m]; [done|]. apply allIn_cons in Hdm as [Hx _].
    simpl. by apply digit_not_whiteSpace. }
  assert (startsIn RegExp.Digit (w1 +:+ "x" +:+ w2 +:+ m +:+ tail) = false) as Hs1.
  { destruct w1 as [|x w1]; [done|]. apply allIn_cons in Hw1 as [Hx _].
    simpl. by apply whiteSpace_not_digit. }
  destruct (afterPlus_head RegExp.Digit n _ Hn Hdn Hs1) as [o1 H1].
  destruct (afterStar_head RegExp.WhiteSpace w1 ("x" +:+ w2 +:+ m +:+ tail) Hw1 eq_refl)
    as [o2 H2].
  destruct (afterStar_head RegExp.WhiteSpace w2 (m +:+ tail) Hw2 Hsm) as [o3 H3].
  destruct (afterPlus_head RegExp.Digit m tail Hm Hdm Htail) as [o4 H4].
  assert (head (RegExp.run setsRepsPattern (n +:+ w1 +:+ "x" +:+ w2 +:+ m +:+ tail) [])
          = Some (tail, [(2%nat, m); (1%nat, n)])) as Hrun.
  { unfold setsRepsPattern. cbn [RegExp.run].
    eapply head_bind_first; [by rewrite H1, !fmap_cons|].
    cbn [fst snd]. rewrite consumed_app.
    eapply head_bind_first; [by rewrite H2, fmap_cons|]. cbn [fst snd].
    eapply head_bind_first; [reflexivity|]. cbn [fst snd].
    eapply head_bind_first; [by rewrite H3, fmap_cons|]. cbn [fst snd].
    unfold repsAlternatives. cbn [RegExp.run].
    rewrite H4, fmap_cons, <- app_comm_cons, fmap_cons.
    cbn [head fst snd]. by rewrite consumed_app. }
  unfold parseSetsReps.
  assert (Js.truthy (n +:+ w1 +:+ "x" +:+ w2 +:+ m +:+ tail) = true) as ->
    by (by destruct n).
  by rewrite (exec_head _ _ _ Hrun).
Qed.

(** X25. A text that starts with digits, the letter x (with or without white
    space around it) and digits again fills the form with the two
    numbers. Whatever follows the second number, be it "sec", "min",
    "reps" or "per leg", is dropped. *)
Theorem parseSetsReps_numbers (n w1 w2 m tail : string) :
  digitsOnly n → allIn RegExp.WhiteSpace w1 → allIn RegExp.WhiteSpace w2 →
  digitsOnly m → startsIn RegExp.Digit tail = false →
  parseSetsReps (n +:+ w1 +:+ "x" +:+ w2 +:+ m +:+ tail) = (n, m).
Proof. apply parseSetsReps_leading_numbers. Qed.

Lemma parseSetsReps_numbers_witness :
  parseSetsReps ("3" +:+ " " +:+ "x" +:+ " " +:+ "45" +:+ " sec") = ("3", "45").
Proof.
  apply (parseSetsReps_numbers "3" " " " " "45" " sec").
  - split; [done | repeat constructor].
  - repeat constructor.
  - repeat constructor.
  - split; [done | repeat constructor].
  - reflexivity.
Defined.

(** ** Properties of the catalogue lookups *)

(** X27. Whatever day is selected, the weekday computed for it has a template
    in the catalogue, with at least three exercises: the panel of the
    selected day never falls back to "no template", and "Add All" always
    has something to add. *)
Theorem getSelectedDayWorkout_defined currentDay selectedDay currentDayNumber :
  ∃ weekday template,
    selectedWeekdayEffect currentDay selectedDay currentDayNumber = Some weekday
    ∧ getSelectedDayWorkout (Some weekday) = Some template
    ∧ (3 ≤ length (exercises template))%nat.
Proof.
  destruct (selectedWeekdayEffect_valid currentDay selectedDay currentDayNumber)
    as (weekday & Heffect & Hweekday).
  exists weekday. rewrite Heffect. unfold weekdays in Hweekday.
  repeat (apply elem_of_cons in Hweekday as [->|Hweekday];
          [eexists; split; [reflexivity|]; split; [vm_compute; reflexivity|];
           vm_compute; lia|]).
  by apply elem_of_nil in Hweekday.
Qed.

(** X28. For each of the seven values of [getDay()] the weekly schedule has an
    entry for that weekday: the rest-day fallback is never shown. *)
Theorem getCurrentWorkoutSchedule_found currentDay :
  0 ≤ currentDay < 7 →
  scheduleDay (getCurrentWorkoutSchedule currentDay) = Js.index weekdays currentDay
  ∧ scheduleDay (getCurrentWorkoutSchedule currentDay) ≠ None
  ∧ getCurrentWorkoutSchedule currentDay ∈ weeklySchedule.
Proof.
  intros Hday.
  assert (currentDay = 0 ∨ currentDay = 1 ∨ currentDay = 2 ∨ currentDay = 3
          ∨ currentDay = 4 ∨ currentDay = 5 ∨ currentDay = 6) as Hcases by lia.
  destruct Hcases as [->|[->|[->|[->|[->|[->| ->]]]]]];
    (split; [vm_compute; reflexivity|]); (split; [vm_compute; discriminate|]);
    apply list_elem_of_In; vm_compute; repeat (first [by left | right]).
Qed.

Lemma getCurrentWorkoutSchedule_found_witness :
  scheduleDay (getCurrentWorkoutSchedule 0) = Js.index weekdays 0
  ∧ scheduleDay (getCurrentWorkoutSchedule 0) ≠ None
  ∧ getCurrentWorkoutSchedule 0 ∈ weeklySchedule.
Proof. apply (getCurrentWorkoutSchedule_found 0). lia. Defined.

(** ** The two ways of cutting a text of the catalogue *)

Lemma allIn_not_elem c x str :
  RegExp.inClass c x = false → allIn c str → x ∉ String.list_ascii_of_string str.
Proof.
  intros Hx Hstr Hin. unfold allIn in Hstr. rewrite Forall_forall in Hstr.
  specialize (Hstr x Hin). congruence.
Qed.

Lemma trimStart_whiteSpace w str :
  allIn RegExp.WhiteSpace w → Js.trimStart (w +:+ str) = Js.trimStart str.
Proof.
  induction w as [|x w IH]; [done|]. intros Hw. apply allIn_cons in Hw as [Hx Hw].
  rewrite string_app_cons. simpl in *. rewrite Hx. by apply IH.
Qed.

Lemma trimStart_id str :
  startsIn RegExp.WhiteSpace str = false → Js.trimStart str = str.
Proof. destruct str as [|x str]; [done|]. simpl. by intros ->. Qed.

Lemma trimEnd_whiteSpace_only w : allIn RegExp.WhiteSpace w → Js.trimEnd w = EmptyString.
Proof.
  induction w as [|x w IH]; [done|]. intros Hw. apply allIn_cons in Hw as [Hx Hw].
  simpl in *. by rewrite IH, Hx.
Qed.

Lemma trimEnd_whiteSpace str w :
  allIn RegExp.WhiteSpace w → Js.trimEnd (str +:+ w) = Js.trimEnd str.
Proof.
  intros Hw. induction str as [|x str IH]; [by apply trimEnd_whiteSpace_only|].
  rewrite string_app_cons. simpl. by rewrite IH.
Qed.

Lemma trimEnd_digits n : allIn RegExp.Digit n → Js.trimEnd n = n.
Proof.
  induction n as [|x n IH]; [done|]. intros Hn. apply allIn_cons in Hn as [Hx Hn].
  simpl. rewrite IH by done. destruct n as [|y n]; [|done].
  apply digit_not_whiteSpace in Hx. simpl in Hx. by rewrite Hx.
Qed.

(** X26. On a text of the form digits, x, digits and a rest without another x,
    the two ways of cutting agree on [sets] and differ on [reps] by the
    rest: the prefill keeps the bare number, [addAllFromTemplate] keeps
    the number with what follows it. *)
Theorem template_and_prefill (n w1 w2 m tail : string) :
  digitsOnly n → allIn RegExp.WhiteSpace w1 → allIn RegExp.WhiteSpace w2 →
  digitsOnly m → startsIn RegExp.Digit tail = false →
  "x"%char ∉ String.list_ascii_of_string tail →
  templateSets (n +:+ w1 +:+ "x" +:+ w2 +:+ m +:+ tail)
  = (parseSetsReps (n +:+ w1 +:+ "x" +:+ w2 +:+ m +:+ tail)).1
  ∧ (parseSetsReps (n +:+ w1 +:+ "x" +:+ w2 +:+ m +:+ tail)).2 = m
  ∧ templateReps (n +:+ w1 +:+ "x" +:+ w2 +:+ m +:+ tail) = Js.trimEnd (m +:+ tail).
Proof.
  intros Hn Hw1 Hw2 Hm Htail Hnox.
  rewrite (parseSetsReps_leading_numbers n w1 w2 m tail) by done. simpl.
  destruct Hn as [Hn Hdn]. destruct Hm as [Hm Hdm].
  assert ("x"%char ∉ String.list_ascii_of_string (n +:+ w1)) as Hbefore.
  { rewrite list_ascii_of_string_app, not_elem_of_app.
    split; [by apply (allIn_not_elem RegExp.Digit)
           | by apply (allIn_not_elem RegExp.WhiteSpace)]. }
  assert ("x"%char ∉ String.list_ascii_of_string (w2 +:+ m +:+ tail)) as Hafter.
  { rewrite !list_ascii_of_string_app, !not_elem_of_app.
    split; [by apply (allIn_not_elem RegExp.WhiteSpace)|].
    split; [by apply (allIn_not_elem RegExp.Digit) | done]. }
  assert (startsIn RegExp.WhiteSpace (m +:+ tail) = false) as Hsm.
  { destruct m as [|x m]; [done|]. apply allIn_cons in Hdm as [Hx _].
    simpl. by apply digit_not_whiteSpace. }
  assert (startsIn RegExp.WhiteSpace n = false) as Hsn.
  { destruct n as [|x n]; [done|]. apply allIn_cons in Hdn as [Hx _].
    simpl. by apply digit_not_whiteSpace. }
  unfold templateSets, templateReps.
  replace (n +:+ w1 +:+ "x" +:+ w2 +:+ m +:+ tail)
    with ((n +:+ w1) +:+ String "x"%char (w2 +:+ m +:+ tail))
    by (by rewrite string_app_assoc).
  rewrite split_at_separator, (split_without_separator _ _ Hafter) by done.
  simpl. unfold Js.trim. split; [|split; [done|]].
  - rewrite (trimStart_id (n +:+ w1)) by (by rewrite startsIn_app).
    by rewrite trimEnd_whiteSpace, trimEnd_digits.
  - by rewrite trimStart_whiteSpace, trimStart_id.
Qed.

Lemma template_and_prefill_witness :
  templateSets ("3" +:+ " " +:+ "x" +:+ " " +:+ "45" +:+ " sec")
  = (parseSetsReps ("3" +:+ " " +:+ "x" +:+ " " +:+ "45" +:+ " sec")).1
  ∧ (parseSetsReps ("3" +:+ " " +:+ "x" +:+ " " +:+ "45" +:+ " sec")).2 = "45"
  ∧ templateReps ("3" +:+ " " +:+ "x" +:+ " " +:+ "45" +:+ " sec")
    = Js.trimEnd ("45" +:+ " sec").
Proof.
  apply (template_and_prefill "3" " " " " "45" " sec").
  - split; [done | repeat constructor].
  - repeat constructor.
  - repeat constructor.
  - split; [done | repeat constructor].
  - reflexivity.
  - intros Hin. apply list_elem_of_In in Hin. simpl in Hin.
    repeat (destruct Hin as [Heq|Hin]; [discriminate Heq|]). destruct Hin.
Defined.

(** ** Start-up and weekday, in one statement each *)

(** X4. After start-up the four keys of the application hold a non-empty
    text, and a second run changes nothing: it writes no key and leaves
    the window, with its record of writes, as the first run left it. *)
Theorem initializeLocalStorage_settles w :
  Forall (λ k, ∃ item, localStorage (initializeLocalStorage w) !! k = Some item
                       ∧ Js.truthy item = true)
    ["currentDayNumber"; "completedDays"; "todayTasks"; "workouts"]
  ∧ initializeLocalStorage (initializeLocalStorage w) = initializeLocalStorage w.
Proof.
  assert (∀ k, k ∈ ["currentDayNumber"; "completedDays"; "todayTasks"; "workouts"] →
               ∃ item, localStorage (initializeLocalStorage w) !! k = Some item
                       ∧ Js.truthy item = true) as Hfilled
    by apply initializeLocalStorage_fills_key.
  split; [by apply Forall_forall|].
  unfold initializeLocalStorage at 1.
  destruct (Hfilled "currentDayNumber") as (i1 & H1 & T1); [set_solver|].
  rewrite (setItemIfMissing_present "currentDayNumber" _ _ i1 H1 T1).
  destruct (Hfilled "completedDays") as (i2 & H2 & T2); [set_solver|].
  rewrite (setItemIfMissing_present "completedDays" _ _ i2 H2 T2).
  destruct (Hfilled "todayTasks") as (i3 & H3 & T3); [set_solver|].
  rewrite (setItemIfMissing_present "todayTasks" _ _ i3 H3 T3).
  destruct (Hfilled "workouts") as (i4 & H4 & T4); [set_solver|].
  by rewrite (setItemIfMissing_present "workouts" _ _ i4 H4 T4).
Qed.

(** X29. The weekday that the effect computes for the selected day: it is
    always one of the seven names, it is today's weekday for the current
    day, it repeats every seven days, and the next day gets the next
    weekday. *)
Theorem selectedWeekdayEffect_calendar currentDay n currentDayNumber :
  0 ≤ currentDay < 7 →
  (∃ weekday, selectedWeekdayEffect currentDay n currentDayNumber = Some weekday
              ∧ weekday ∈ weekdays)
  ∧ selectedWeekdayEffect currentDay currentDayNumber currentDayNumber
    = Js.index weekdays currentDay
  ∧ selectedWeekdayEffect currentDay (n + 7) currentDayNumber
    = selectedWeekdayEffect currentDay n currentDayNumber
  ∧ selectedWeekdayEffect currentDay (n + 1) currentDayNumber
    = Js.index weekdays (((currentDay + (n - currentDayNumber)) mod 7 + 1) mod 7).
Proof.
  intros Hday. split; [apply selectedWeekdayEffect_valid|].
  split; [by apply selectedWeekdayEffect_today|].
  split; [apply selectedWeekdayEffect_periodic|].
  rewrite selectedWeekdayEffect_modulo. f_equal.
  replace (currentDay + (n + 1 - currentDayNumber))
    with (currentDay + (n - currentDayNumber) + 1) by lia.
  by rewrite Z.add_mod_idemp_l by lia.
Qed.

Lemma selectedWeekdayEffect_calendar_witness :
  (∃ weekday, selectedWeekdayEffect 2 1 10 = Some weekday ∧ weekday ∈ weekdays)
  ∧ selectedWeekdayEffect 2 10 10 = Js.index weekdays 2
  ∧ selectedWeekdayEffect 2 (1 + 7) 10 = selectedWeekdayEffect 2 1 10
  ∧ selectedWeekdayEffect 2 (1 + 1) 10
    = Js.index weekdays (((2 + (1 - 10)) mod 7 + 1) mod 7).
Proof. apply (selectedWeekdayEffect_calendar 2 1 10). lia. Defined.

(** X30. The labels of the day selector are right from the current day on:
    for an option that is not before the current day the label shows the
    weekday that the effect computes for that day. *)
Theorem daySelectOptionWeekday_from_today currentDay i currentDayNumber :
  0 ≤ currentDay → currentDayNumber ≤ i + 1 →
  daySelectOptionWeekday currentDay i currentDayNumber
  = selectedWeekdayEffect currentDay (i + 1) currentDayNumber.
Proof. intros Hday Hlater. apply daySelectOptionWeekday_nonneg. lia. Qed.

Lemma daySelectOptionWeekday_from_today_witness :
  daySelectOptionWeekday 0 2 3 = selectedWeekdayEffect 0 (2 + 1) 3.
Proof. apply (daySelectOptionWeekday_from_today 0 2 3); lia. Defined.

(** ** Identifiers of a batch taken from the catalogue *)

Lemma pretty_N_go_no_dash (x : N) (s : string) :
  "-"%char ∉ String.list_ascii_of_string s →
  "-"%char ∉ String.list_ascii_of_string (pretty_N_go x s).
Proof.
  revert s. induction (N.lt_wf_0 x) as [x _ IH]. intros s Hs.
  assert (x = 0 ∨ 0 < x)%N as [->|Hpos] by lia.
  - by rewrite pretty_N_go_0.
  - rewrite pretty_N_go_step by done. apply IH; [by apply N.div_lt|].
    simpl. apply not_elem_of_cons. split; [|done].
    unfold pretty_N_char. by repeat case_match.
Qed.

Lemma pretty_N_go_nonempty (x : N) (s : string) :
  s ≠ EmptyString → pretty_N_go x s ≠ EmptyString.
Proof.
  revert s. induction (N.lt_wf_0 x) as [x _ IH]. intros s Hs.
  assert (x = 0 ∨ 0 < x)%N as [->|Hpos] by lia.
  - by rewrite pretty_N_go_0.
  - rewrite pretty_N_go_step by done. apply IH; [by apply N.div_lt | done].
Qed.

(** The decimal text of a natural number is not empty and holds no dash. *)
Lemma pretty_N_body (n : N) :
  pretty n ≠ EmptyString ∧ "-"%char ∉ String.list_ascii_of_string (pretty n).
Proof.
  unfold pretty, pretty_N. destruct (decide (n = 0%N)) as [->|Hne].
  - split; [done|]. simpl. apply not_elem_of_cons. split; [done | apply not_elem_of_nil].
  - assert (0 < n)%N as Hpos by lia. split.
    + rewrite pretty_N_go_step by done. by apply pretty_N_go_nonempty.
    + apply pretty_N_go_no_dash. apply not_elem_of_nil.
Qed.

Lemma string_app_nil_l (s : string) : EmptyString +:+ s = s.
Proof. reflexivity. Qed.

Lemma dash_separated_inj (p q r1 r2 : string) :
  "-"%char ∉ String.list_ascii_of_string p →
  "-"%char ∉ String.list_ascii_of_string q →
  p +:+ String "-"%char r1 = q +:+ String "-"%char r2 → p = q ∧ r1 = r2.
Proof.
  revert q. induction p as [|c p IH]; intros [|d q] Hp Hq Heq;
    rewrite ?string_app_nil_l, ?string_app_cons in Heq.
  - by injection Heq as ->.
  - injection Heq as <- _. destruct Hq. by left.
  - injection Heq as -> _. destruct Hp. by left.
  - injection Heq as -> Heq.
    simpl in Hp, Hq. apply not_elem_of_cons in Hp as [_ Hp].
    apply not_elem_of_cons in Hq as [_ Hq].
    destruct (IH q Hp Hq Heq) as [-> ->]. done.
Qed.

(** A clock reading followed by a dash and a suffix determines both. *)
Lemma toString_dash_inj (a b : Z) (r1 r2 : string) :
  Js.toString a +:+ "-" +:+ r1 = Js.toString b +:+ "-" +:+ r2 → a = b ∧ r1 = r2.
Proof.
  assert (∀ z : Z, 0 ≤ z → ∃ n : N, Js.toString z = pretty n) as Hnonneg.
  { intros [|x|x] Hz; [by exists 0%N | by exists (Npos x) | lia]. }
  assert (∀ z : Z, z < 0 → ∃ n : N, Js.toString z = "-" +:+ pretty n) as Hneg.
  { intros [|x|x] Hz; [lia | lia | by exists (Npos x)]. }
  intros Heq.
  assert (Js.toString a = Js.toString b ∧ r1 = r2) as [Htext ->].
  { destruct (Z.lt_ge_cases a 0) as [Ha|Ha], (Z.lt_ge_cases b 0) as [Hb|Hb].
    - destruct (Hneg a Ha) as [n Hn], (Hneg b Hb) as [m Hm].
      rewrite Hn, Hm in Heq |- *. rewrite !string_app_assoc in Heq.
      apply (inj (String.app "-")) in Heq.
      destruct (pretty_N_body n) as [_ Hdn], (pretty_N_body m) as [_ Hdm].
      destruct (dash_separated_inj _ _ _ _ Hdn Hdm Heq) as [-> ->]. done.
    - destruct (Hneg a Ha) as [n Hn], (Hnonneg b Hb) as [m Hm].
      rewrite Hn, Hm in Heq. destruct (pretty_N_body m) as [Hne Hdm].
      destruct (pretty m) as [|c body]; [done|].
      rewrite string_app_assoc in Heq. injection Heq as <- _.
      destruct Hdm. by left.
    - destruct (Hnonneg a Ha) as [n Hn], (Hneg b Hb) as [m Hm].
      rewrite Hn, Hm in Heq. destruct (pretty_N_body n) as [Hne Hdn].
      destruct (pretty n) as [|c body]; [done|].
      rewrite string_app_assoc in Heq. injection Heq as -> _.
      destruct Hdn. by left.
    - destruct (Hnonneg a Ha) as [n Hn], (Hnonneg b Hb) as [m Hm].
      rewrite Hn, Hm in Heq |- *.
      destruct (pretty_N_body n) as [_ Hdn], (pretty_N_body m) as [_ Hdm].
      destruct (dash_separated_inj _ _ _ _ Hdn Hdm Heq) as [-> ->]. done. }
  split; [|done]. unfold Js.toString in Htext. by apply (inj pretty) in Htext.
Qed.

(** X22. The identifiers of one batch of [addAllFromTemplate] are pairwise
    distinct as soon as the random source does not repeat itself within
    the batch, whatever the clock reads for each element. *)
Theorem addAllFromTemplate_distinct_ids now random exercises :
  (∀ i j, random i = random j → i = j) →
  NoDup (id <$> imap (fromTemplate now random) exercises).
Proof.
  intros Hrandom. rewrite fmap_imap. apply NoDup_imap_inj.
  intros i j ex ex'. unfold fromTemplate, compose. simpl.
  intros Heq. apply (inj (String.app "template-")) in Heq.
  apply toString_dash_inj in Heq as [_ Heq]. by apply Hrandom.
Qed.

Lemma addAllFromTemplate_distinct_ids_witness :
  NoDup (id <$> imap (fromTemplate frozenClock countingSuffix) [yogaFlow; pushUps; plank]).
Proof.
  apply (addAllFromTemplate_distinct_ids frozenClock countingSuffix).
  intros i j Heq. unfold countingSuffix in Heq. by apply (inj pretty) in Heq.
Defined.
